(** * Java file scanner (scripts/scan-java-files.js)

    A shallow embedding of the [JavaFileScanner] class and the properties
    its specification states about it.

    The script consumes two external collaborators that are not part of the
    repository: the [java-parser] package, which turns source text into a
    concrete syntax tree, and Node's [fs]/[path] modules.  Both are
    represented by the data they hand to the script:

    - a syntax tree is a [CstElement]: either a node, whose [children] is
      an object mapping a rule or token name to an array of elements, or a
      token carrying an [image];
    - the directory below the scan directory is an [FsEntry] tree, whose
      directory listings are in the order [readdirSync] returns them;
    - reading and parsing a file is a finite map from path to tree, a path
      being absent when [readFileSync] or [parse] throws. *)

From Stdlib Require Import Ascii.
From stdpp Require Import gmap strings list sorting.

#[local] Set Warnings "-clear-no-such-hyp".

(** ** Strings as JavaScript uses them *)

Module Js.

(** [s.split(c)] for a one-character separator: never empty, the pieces
    between the separators in order. *)
Fixpoint split (c : Ascii.ascii) (s : string) : list string :=
  match s with
  | "" => [""]
  | String a rest =>
      if Ascii.eqb a c then "" :: split c rest
      else match split c rest with
           | piece :: pieces => String a piece :: pieces
           | [] => [String a ""]
           end
  end.

(** [parts.join(sep)]. *)
Definition join (sep : string) (parts : list string) : string :=
  String.concat sep parts.

(** [parts[parts.length - 1]] on an array of strings; [split] never
    returns an empty array, so the default is not reached there. *)
Definition lastPart (parts : list string) : string := List.last parts "".

(** [arr.includes(x)] on an array of strings. *)
Definition includes (arr : list string) (x : string) : bool :=
  bool_decide (x ∈ arr).

(** [s.startsWith(prefix)]. *)
Definition startsWith (s pre : string) : bool := String.prefix pre s.

(** [s.endsWith(suffix)]: some tail of [s] is [suffix]. *)
Fixpoint endsWith (s suf : string) : bool :=
  String.eqb s suf ||
  match s with
  | "" => false
  | String _ rest => endsWith rest suf
  end.

(** A string is truthy when it is not empty. *)
Definition truthy (s : string) : bool :=
  match s with "" => false | _ => true end.

(** A string of the script is a sequence of UTF-16 code units.  Here it
    is held as the bytes of its UTF-8 text, which is what the literals of
    the script and the names on disk are; the comparison of two strings
    goes back to the code units. *)
Fixpoint bytes (s : string) : list N :=
  match s with
  | "" => []
  | String a rest => Ascii.N_of_ascii a :: bytes rest
  end.

Definition continuation (b : N) : bool := ((128 <=? b) && (b <? 192))%N.

(** What a first byte contributes to its code point, and how many
    continuation bytes follow it; a byte that starts nothing is read as
    U+FFFD. *)
Definition lead (b : N) : N * nat :=
  if (b <? 128)%N then (b, 0)
  else if ((192 <=? b) && (b <? 224))%N then ((b - 192)%N, 1)
  else if ((224 <=? b) && (b <? 240))%N then ((b - 224)%N, 2)
  else if ((240 <=? b) && (b <? 248))%N then ((b - 240)%N, 3)
  else (65533%N, 0).

(** The code points of a UTF-8 text, with [pending] continuation bytes
    of the code point [acc] still to come. *)
Fixpoint decode (pending : nat) (acc : N) (text : list N) : list N :=
  match text with
  | [] => match pending with 0 => [] | S _ => [65533%N] end
  | b :: rest =>
      let start :=
        let '(value, expected) := lead b in
        match expected with
        | 0 => value :: decode 0 0%N rest
        | S _ => decode expected value rest
        end in
      match pending with
      | 0 => start
      | S k =>
          if continuation b then
            let acc' := (acc * 64 + (b - 128))%N in
            match k with
            | 0 => acc' :: decode 0 0%N rest
            | S _ => decode k acc' rest
            end
          else 65533%N :: start
      end
  end.

(** The UTF-16 form of a code point: itself, or a surrogate pair above
    U+FFFF. *)
Definition codeUnits (codePoint : N) : list N :=
  if (codePoint <? 65536)%N then [codePoint]
  else [(55296 + (codePoint - 65536) / 1024)%N;
        (56320 + (codePoint - 65536) mod 1024)%N].

Definition utf16 (s : string) : list N :=
  decode 0 0%N (bytes s) ≫= codeUnits.

Fixpoint compareUnits (l1 l2 : list N) : comparison :=
  match l1, l2 with
  | [], [] => Eq
  | [], _ :: _ => Lt
  | _ :: _, [] => Gt
  | a :: l1', b :: l2' =>
      match (a ?= b)%N with
      | Eq => compareUnits l1' l2'
      | c => c
      end
  end.

(** [!(s2 < s1)] on strings: the order [Array.prototype.sort()] sorts by
    when it is given no comparator, code unit by code unit. *)
Definition codeUnitLe (s1 s2 : string) : Prop :=
  compareUnits (utf16 s1) (utf16 s2) ≠ Gt.

#[global] Instance codeUnitLe_dec : RelDecision codeUnitLe.
Proof. intros s1 s2. unfold codeUnitLe. apply _. Defined.

End Js.

(** ** Concrete syntax trees *)

#[local] Unset Elimination Schemes.

(** What the parser returns: [CstNode] is an object with a [children]
    dictionary, [IToken] an object with an [image]. *)
Inductive CstElement : Type :=
  | CstNode (children : gmap string (list CstElement))
  | IToken (image : string).

#[local] Set Elimination Schemes.

Module Cst.

(** [e.children], undefined on a token. *)
Definition children (e : CstElement) : option (gmap string (list CstElement)) :=
  match e with
  | CstNode c => Some c
  | IToken _ => None
  end.

(** [e.image], undefined on a node. *)
Definition image (e : CstElement) : option string :=
  match e with
  | CstNode _ => None
  | IToken s => Some s
  end.

(** [e.children?.[k]]: the array stored under [k], if any. *)
Definition child (e : CstElement) (k : string) : option (list CstElement) :=
  children e ≫= (.!! k).

(** [e.children?.[k]?.[0]]. *)
Definition first (e : CstElement) (k : string) : option CstElement :=
  child e k ≫= head.

(** An optional chain [e.children?.[k1]?.[0]?.children?.[k2]?.[0]...]. *)
Fixpoint path (e : CstElement) (ks : list string) : option CstElement :=
  match ks with
  | [] => Some e
  | k :: ks' =>
      match first e k with
      | Some e' => path e' ks'
      | None => None
      end
  end.

(** [e.image] when it is a non-empty string, as the conditions
    [if (x?.image)] test it. *)
Definition truthyImage (e : CstElement) : option string :=
  match image e with
  | Some s => if Js.truthy s then Some s else None
  | None => None
  end.

(** [id.image] as [Array.prototype.join] renders it: undefined becomes the
    empty string. *)
Definition imageOrEmpty (e : CstElement) : string :=
  default "" (image e).

End Cst.

(** ** Paths and the file system *)

Module Path.

(** One step of Node's [normalizeString], on the piece [seg] between two
    separators: an empty piece and [.] are dropped, [..] removes the piece
    before it, or is kept when there is none to remove and the path is
    relative. *)
Definition pushSegment (allowAboveRoot : bool) (res : list string)
    (seg : string) : list string :=
  if bool_decide (seg = "" ∨ seg = ".") then res
  else if bool_decide (seg = "..") then
    match last res with
    | Some prev =>
        if bool_decide (prev = "..")
        then (if allowAboveRoot then res ++ [".."] else res)
        else removelast res
    | None => if allowAboveRoot then [".."] else res
    end
  else res ++ [seg].

Definition normalizeSegments (allowAboveRoot : bool) (segments : list string)
    : list string :=
  foldl (pushSegment allowAboveRoot) [] segments.

(** [path.isAbsolute(p)] (POSIX). *)
Definition isAbsolute (p : string) : bool := Js.startsWith p "/".

(** [path.normalize(p)] (POSIX). *)
Definition normalize (p : string) : string :=
  if Js.truthy p then
    let trailingSeparator := Js.endsWith p "/" in
    let body :=
      Js.join "/" (normalizeSegments (negb (isAbsolute p)) (Js.split "/"%char p)) in
    if Js.truthy body then
      (if isAbsolute p then "/" else "") +:+ body
        +:+ (if trailingSeparator then "/" else "")
    else if isAbsolute p then "/"
    else if trailingSeparator then "./" else "."
  else ".".

(** [path.join(a, b)] (POSIX): the non-empty arguments joined with a
    separator, then normalized. *)
Definition join (a b : string) : string :=
  match Js.truthy a, Js.truthy b with
  | true, true => normalize (a +:+ "/" +:+ b)
  | true, false => normalize a
  | false, true => normalize b
  | false, false => "."
  end.

End Path.

#[local] Unset Elimination Schemes.

(** What [statSync] and [readdirSync] show below a path: a regular file,
    or a directory with its entries in listing order. *)
Inductive FsEntry : Type :=
  | FsFile
  | FsDir (entries : list (string * FsEntry)).

#[local] Set Elimination Schemes.

(** The files of one run: what is found at the scan directory (nothing
    when [existsSync] is false) and, per path, the tree that reading and
    parsing the file yields. *)
Record FileSystem : Type := mkFileSystem {
  fsRoot : option FsEntry;
  fsParsed : gmap string CstElement;
}.

(** ** The scanner *)

Module JavaFileScanner.

(** The configuration document as [JSON.parse] yields it: every field may
    be missing. *)
Record Config : Type := mkConfig {
  cfgAnnotations : option (list string);
  cfgInterfaces : option (list string);
  cfgExcludeAbstract : option bool;
  cfgScanDir : option string;
}.

(** The fields the constructor sets on [this]. *)
Record Scanner : Type := mkScanner {
  annotations : list string;
  interfaces : list string;
  excludeAbstract : bool;
  scanDir : string;
}.

(** [constructor(config)]. [config.excludeAbstract !== false] is true when
    the field is missing; [config.scanDir || '...'] also replaces the empty
    string. *)
Definition new (config : Config) : Scanner :=
  {| annotations := default [] (cfgAnnotations config);
     interfaces := default [] (cfgInterfaces config);
     excludeAbstract := default true (cfgExcludeAbstract config);
     scanDir :=
       match cfgScanDir config with
       | Some d => if Js.truthy d then d else "./src/main/java"
       | None => "./src/main/java"
       end |}.

(** The directories [walkDir] does not descend into. *)
Definition skippedDirectory (entry : string) : bool :=
  bool_decide (entry = "target") || bool_decide (entry = "build")
    || Js.startsWith entry ".".

(** [walkDir(currentPath)] on what is found there.  Files are pushed in
    the order they are met. *)
Fixpoint walkDir (currentPath : string) (found : FsEntry) : list string :=
  match found with
  | FsDir entries =>
      (fix forEntries (rest : list (string * FsEntry)) : list string :=
         match rest with
         | [] => []
         | (entry, sub) :: rest' =>
             let fullPath := Path.join currentPath entry in
             match sub with
             | FsDir _ =>
                 if skippedDirectory entry then forEntries rest'
                 else walkDir fullPath sub ++ forEntries rest'
             | FsFile =>
                 if Js.endsWith entry ".java" then fullPath :: forEntries rest'
                 else forEntries rest'
             end
         end) entries
  | FsFile =>
      if Js.endsWith currentPath ".java" then [currentPath] else []
  end.

(** [findJavaFiles(dir)]. *)
Definition findJavaFiles (fs : FileSystem) (dir : string) : list string :=
  match fsRoot fs with
  | Some found => walkDir dir found
  | None => []
  end.

(** [parseJavaFile(filePath)]: the tree, or null when reading or parsing
    throws.  The [parsedFiles] cache stores what this returns and so does
    not change it. *)
Definition parseJavaFile (fs : FileSystem) (filePath : string)
    : option CstElement :=
  fsParsed fs !! filePath.

(** [getTypeName(node)]: the identifier of a normal class declaration, else
    of a normal interface declaration, else null. *)
Definition getTypeName (node : CstElement) : option string :=
  let nameUnder (k : string) :=
    Cst.path node [k; "typeIdentifier"; "Identifier"] ≫= Cst.truthyImage in
  match nameUnder "normalClassDeclaration" with
  | Some name => Some name
  | None => nameUnder "normalInterfaceDeclaration"
  end.

(** [isAbstract(node)]. *)
Definition isAbstract (node : CstElement) : bool :=
  match Cst.child node "classModifier" with
  | None => false
  | Some mods =>
      existsb (λ modifier, bool_decide (is_Some (Cst.first modifier "abstractKeyword"))) mods
  end.

(** The entries pushed for one [typeName] node.  The same block appears in
    [getAnnotations], [getImplementedInterfaces] and
    [getExtendedInterfaces]: first the image of the node's own first
    identifier, then the identifiers of its [packageOrTypeName] child
    joined with dots. *)
Definition typeNameEntries (typeName : CstElement) : list string :=
  match Cst.first typeName "Identifier" ≫= Cst.truthyImage with
  | Some simple => [simple]
  | None => []
  end ++
  match Cst.first typeName "packageOrTypeName" with
  | Some ptn =>
      match Cst.child ptn "Identifier" with
      | Some ids => [Js.join "." (Cst.imageOrEmpty <$> ids)]
      | None => []
      end
  | None => []
  end.

(** The loop body shared by the three extractors: [x.children?.typeName?.[0]]
    and, when it is there, its entries. *)
Definition entriesOf (x : CstElement) : list string :=
  match Cst.first x "typeName" with
  | Some typeName => typeNameEntries typeName
  | None => []
  end.

(** [getAnnotations(node)]. *)
Definition getAnnotations (node : CstElement) : list string :=
  match Cst.child node "classModifier" with
  | None => []
  | Some mods =>
      mods ≫= (λ modifier,
        match Cst.child modifier "annotation" with
        | Some anns => anns ≫= entriesOf
        | None => []
        end)
  end.

(** The tail of [getImplementedInterfaces] and [getExtendedInterfaces],
    from the clause node on. *)
Definition interfaceTypeEntries (clause : option CstElement) : list string :=
  match clause with
  | None => []
  | Some body =>
      match Cst.first body "interfaceTypeList" with
      | None => []
      | Some interfaceList =>
          default [] (Cst.child interfaceList "interfaceType") ≫= entriesOf
      end
  end.

(** [getImplementedInterfaces(node)]. *)
Definition getImplementedInterfaces (node : CstElement) : list string :=
  interfaceTypeEntries
    (Cst.path node ["normalClassDeclaration"; "classImplements"]).

(** [getExtendedInterfaces(node)]. *)
Definition getExtendedInterfaces (node : CstElement) : list string :=
  interfaceTypeEntries
    (Cst.path node ["normalInterfaceDeclaration"; "interfaceExtends"]).

(** [getTypeDeclaration(ast)]. Any element of a children array is an
    object, hence truthy, so [a || b] is [b] exactly when [a] is missing. *)
Definition getTypeDeclaration (ast : CstElement) : option CstElement :=
  match Cst.first ast "ordinaryCompilationUnit" with
  | None => None
  | Some unit =>
      match Cst.first unit "typeDeclaration" with
      | None => None
      | Some typeDecl =>
          match Cst.first typeDecl "classDeclaration" with
          | Some decl => Some decl
          | None => Cst.first typeDecl "interfaceDeclaration"
          end
      end
  end.

(** [findClassDeclaration(className, javaFiles)]: node and path of the
    first file, in the order of [javaFiles], whose declaration has that
    name. *)
Fixpoint findClassDeclaration (fs : FileSystem) (className : string)
    (javaFiles : list string) : option (CstElement * string) :=
  match javaFiles with
  | [] => None
  | filePath :: rest =>
      match parseJavaFile fs filePath with
      | None => findClassDeclaration fs className rest
      | Some ast =>
          match getTypeDeclaration ast with
          | None => findClassDeclaration fs className rest
          | Some typeNode =>
              if bool_decide (getTypeName typeNode = Some className)
              then Some (typeNode, filePath)
              else findClassDeclaration fs className rest
          end
      end
  end.

(** The [for (const ifaceName of implemented)] loop of
    [implementsTargetInterface]; [recurse] is the recursive call.  The
    [visited] set is one object shared by all calls, so what a call added
    is seen by the iterations after it. *)
Fixpoint parentsImplement
    (recurse : CstElement → gset string → option (bool * gset string))
    (resolve : string → option (CstElement * string))
    (implemented : list string) (visited : gset string)
    : option (bool * gset string) :=
  match implemented with
  | [] => Some (false, visited)
  | ifaceName :: rest =>
      match resolve ifaceName with
      | Some (ifaceNode, _) =>
          match recurse ifaceNode visited with
          | Some (true, visited') => Some (true, visited')
          | Some (false, visited') =>
              parentsImplement recurse resolve rest visited'
          | None => None
          end
      | None => parentsImplement recurse resolve rest visited
      end
  end.

(** [implementsTargetInterface(node, targetInterface, javaFiles, visited)]
    with the depth of recursion bounded by [fuel]: [None] when the bound is
    hit, else the returned boolean and the [visited] set as the call left
    it. *)
Fixpoint implementsTargetInterface (fs : FileSystem) (fuel : nat)
    (node : CstElement) (targetInterface : string) (javaFiles : list string)
    (visited : gset string) : option (bool * gset string) :=
  match fuel with
  | 0 => None
  | S fuel' =>
      let nodeKey := default "unknown" (getTypeName node) in
      if bool_decide (nodeKey ∈ visited) then Some (false, visited)
      else
        let visited1 := {[nodeKey]} ∪ visited in
        let implemented := getImplementedInterfaces node in
        if Js.includes implemented targetInterface then Some (true, visited1)
        else
          parentsImplement
            (λ ifaceNode seen,
               implementsTargetInterface fs fuel' ifaceNode targetInterface
                 javaFiles seen)
            (λ ifaceName, findClassDeclaration fs ifaceName javaFiles)
            implemented visited1
  end.

(** A recursion depth no traversal over [javaFiles] exceeds (see
    [implementsTargetInterface_returns]). *)
Definition depthBound (javaFiles : list string) : nat :=
  S (S (length javaFiles)).

(** [implementsTargetInterface(node, targetInterface, javaFiles)] as
    [hasConfiguredInterface] calls it, with a fresh [visited] set. *)
Definition implementsTarget (fs : FileSystem) (node : CstElement)
    (targetInterface : string) (javaFiles : list string) : bool :=
  match implementsTargetInterface fs (depthBound javaFiles) node
          targetInterface javaFiles ∅ with
  | Some (answer, _) => answer
  | None => false
  end.

(** [hasConfiguredAnnotation(node)]. *)
Definition hasConfiguredAnnotation (this : Scanner) (node : CstElement) : bool :=
  match annotations this with
  | [] => false
  | _ =>
      let nodeAnnotations := getAnnotations node in
      let simpleAnnotationNames :=
        (λ a, Js.lastPart (Js.split "."%char a)) <$> annotations this in
      existsb (λ ann,
        if Js.includes simpleAnnotationNames ann then true
        else if Js.includes (annotations this) ann then true
        else false) nodeAnnotations
  end.

(** [hasConfiguredInterface(node, javaFiles)]. *)
Definition hasConfiguredInterface (fs : FileSystem) (this : Scanner)
    (node : CstElement) (javaFiles : list string) : bool :=
  match interfaces this with
  | [] => false
  | _ =>
      existsb (λ targetInterface,
        implementsTarget fs node targetInterface javaFiles) (interfaces this)
  end.

(** The body of the loop of [scan]: whether [filePath] is pushed. *)
Definition matched (fs : FileSystem) (this : Scanner)
    (javaFiles : list string) (filePath : string) : bool :=
  match parseJavaFile fs filePath with
  | None => false
  | Some ast =>
      match getTypeDeclaration ast with
      | None => false
      | Some typeNode =>
          if excludeAbstract this && isAbstract typeNode then false
          else
            let hasAnnotationMatch := hasConfiguredAnnotation this typeNode in
            let hasInterfaceMatch :=
              hasConfiguredInterface fs this typeNode javaFiles in
            hasAnnotationMatch || hasInterfaceMatch
      end
  end.

(** The object [scan] returns. *)
Record ScanResult : Type := mkScanResult {
  count : nat;
  files : list string;
}.

(** [Array.prototype.sort()] without a comparator orders strings by their
    UTF-16 code units; the order is total on strings, so the result does
    not depend on the algorithm. *)
Definition sort (paths : list string) : list string :=
  merge_sort Js.codeUnitLe paths.

(** [scan()]. *)
Definition scan (fs : FileSystem) (this : Scanner) : ScanResult :=
  let javaFiles := findJavaFiles fs (scanDir this) in
  let matchedFiles := List.filter (matched fs this javaFiles) javaFiles in
  {| count := length matchedFiles; files := sort matchedFiles |}.

End JavaFileScanner.

(** ** The parse cache *)

Module Cache.

(** [parseJavaFile(filePath)] with the [parsedFiles] map it reads and
    writes: a cached tree is returned as it is; otherwise the file is read
    and parsed, the tree is stored on success, and on failure null is
    returned and nothing is stored. *)
Definition parseJavaFile (fs : FileSystem) (parsedFiles : gmap string CstElement)
    (filePath : string) : option CstElement * gmap string CstElement :=
  match parsedFiles !! filePath with
  | Some ast => (Some ast, parsedFiles)
  | None =>
      match fsParsed fs !! filePath with
      | Some ast => (Some ast, <[filePath := ast]> parsedFiles)
      | None => (None, parsedFiles)
      end
  end.

(** Parsing the files of a list one after another, as the loops of [scan]
    and [findClassDeclaration] do, threading the cache. *)
Fixpoint parseAll (fs : FileSystem) (parsedFiles : gmap string CstElement)
    (paths : list string) : list (option CstElement) * gmap string CstElement :=
  match paths with
  | [] => ([], parsedFiles)
  | filePath :: rest =>
      let '(ast, parsedFiles') := parseJavaFile fs parsedFiles filePath in
      let '(asts, parsedFiles'') := parseAll fs parsedFiles' rest in
      (ast :: asts, parsedFiles'')
  end.

End Cache.

(** ** The command line *)

Module Main.

(** What the argument loop of [main] sets. *)
Record Options : Type := mkOptions {
  configPath : string;
  scanDir : option string;
}.

(** The loop over [process.argv.slice(2)].  [--config] and [--dir] take
    the next argument as their value when there is one; [--help] and [-h]
    print the usage and exit, which is [None] here; anything else is
    skipped. *)
Fixpoint parseArgs (args : list string) (opts : Options) : option Options :=
  match args with
  | [] => Some opts
  | arg :: rest =>
      match rest with
      | value :: rest' =>
          if bool_decide (arg = "--config")
          then parseArgs rest' {| configPath := value; scanDir := scanDir opts |}
          else if bool_decide (arg = "--dir")
          then parseArgs rest' {| configPath := configPath opts;
                                  scanDir := Some value |}
          else if bool_decide (arg = "--help" ∨ arg = "-h") then None
          else parseArgs rest opts
      | [] =>
          if bool_decide (arg = "--help" ∨ arg = "-h") then None
          else Some opts
      end
  end.

(** What [main] needs from outside: the directory of the script, the
    configuration documents that can be read and parsed, what is found at
    a directory path, and the trees of the source files. *)
Record World : Type := mkWorld {
  dirname : string;
  configs : gmap string JavaFileScanner.Config;
  directories : gmap string FsEntry;
  sources : gmap string CstElement;
}.

(** How a run of [main] ends. *)
Inductive Outcome : Type :=
  | Usage
  | ConfigError (path : string)
  | Printed (result : JavaFileScanner.ScanResult).

(** The exit code of the process. *)
Definition exitCode (outcome : Outcome) : nat :=
  match outcome with
  | Usage => 0
  | ConfigError _ => 1
  | Printed _ => 0
  end.

(** [if (scanDir) config.scanDir = scanDir]. *)
Definition override (dir : option string) (config : JavaFileScanner.Config)
    : JavaFileScanner.Config :=
  match dir with
  | Some d =>
      if Js.truthy d
      then JavaFileScanner.mkConfig (JavaFileScanner.cfgAnnotations config)
             (JavaFileScanner.cfgInterfaces config)
             (JavaFileScanner.cfgExcludeAbstract config) (Some d)
      else config
  | None => config
  end.

(** The file system a scanner sees from its scan directory. *)
Definition fileSystem (world : World) (this : JavaFileScanner.Scanner)
    : FileSystem :=
  {| fsRoot := directories world !! JavaFileScanner.scanDir this;
     fsParsed := sources world |}.

(** [main()]. *)
Definition main (world : World) (args : list string) : Outcome :=
  match parseArgs args
          {| configPath := Path.join (dirname world) "scan-config.json";
             scanDir := None |} with
  | None => Usage
  | Some opts =>
      match configs world !! configPath opts with
      | None => ConfigError (configPath opts)
      | Some config =>
          let scanner := JavaFileScanner.new (override (scanDir opts) config) in
          Printed (JavaFileScanner.scan (fileSystem world scanner) scanner)
      end
  end.

End Main.

(** ** Declarations and the trees the parser builds for them

    The source parser is an npm dependency, [java-parser], which
    design.md pins to version 3.0.1; it is not part of the repository.
    The specification describes what its tree exposes: a top-level type
    declaration node distinguishing class from interface, the node's
    modifiers including an abstract marker, its annotations, each with a
    dotted or simple name reference, and its implements or extends list,
    each member with a dotted or simple name reference.
    [Java.TypeDeclaration] holds exactly that, and [Java.declaration]
    writes down the tree the grammar of the parser gives it:

    - a [classDeclaration] holds one [classModifier] per modifier and a
      [normalClassDeclaration] with [typeIdentifier] and
      [classImplements]; an [interfaceDeclaration] holds one
      [interfaceModifier] per modifier and a [normalInterfaceDeclaration]
      with [typeIdentifier] and [interfaceExtends];
    - a modifier node holds either an [annotation], whose [typeName] keeps
      all identifiers of the reference, in source order, under the one
      key [Identifier], or the keyword token under the name of its token
      type, which is [Abstract] for [abstract];
    - the clause holds an [interfaceTypeList] whose [interfaceType]
      members each hold a [classType], with the identifiers of the
      reference under [Identifier].

    A key is present only when its array is not empty.  Children that
    carry no part of the name, the modifiers or the references
    (punctuation, the other keywords, type arguments, bodies) are left
    out; the script reads none of them. *)

Module Java.

(** A reference to a type as written: [qualifier] holds the identifiers
    before the last dot, empty for a bare identifier. *)
Record NameRef : Type := mkNameRef {
  qualifier : list string;
  identifier : string;
}.

(** The reference as written in the source. *)
Definition text (r : NameRef) : string :=
  Js.join "." (qualifier r ++ [identifier r]).

(** The first identifier of the reference as written. *)
Definition leading (r : NameRef) : string :=
  hd (identifier r) (qualifier r).

Inductive Modifier : Type :=
  | Annotation (ref : NameRef)
  | Abstract.

Inductive Kind : Type := Class | Interface.

(** A top-level class or interface declaration; [parents] is the
    [implements] list of a class, the [extends] list of an interface. *)
Record TypeDeclaration : Type := mkTypeDeclaration {
  kind : Kind;
  simpleName : string;
  modifiers : list Modifier;
  parents : list NameRef;
}.

#[global] Instance NameRef_eq_dec : EqDecision NameRef.
Proof. solve_decision. Defined.

#[global] Instance Modifier_eq_dec : EqDecision Modifier.
Proof. solve_decision. Defined.

(** [m] with the array [v] stored under [k], unless [v] is empty. *)
Definition field (k : string) (v : list CstElement)
    (m : gmap string (list CstElement)) : gmap string (list CstElement) :=
  match v with
  | [] => m
  | _ => <[k := v]> m
  end.

(** Modelled from the spec: the children of the node of a name
    reference.  The rules [typeName] and [classType] of the grammar
    consume an identifier and then, any number of times, a dot and
    another identifier, so every identifier of the reference is a token
    under [Identifier]. *)
Definition identifiers (r : NameRef) : gmap string (list CstElement) :=
  {[ "Identifier" := IToken <$> (qualifier r ++ [identifier r]) ]}.

(** Modelled from the spec: the name of an annotation, a [typeName]. *)
Definition typeName (r : NameRef) : CstElement := CstNode (identifiers r).

(** Modelled from the spec: a member of an implements or extends list;
    the rule [interfaceType] of the grammar is a [classType]. *)
Definition interfaceType (r : NameRef) : CstElement :=
  CstNode {[ "classType" := [CstNode (identifiers r)] ]}.

(** Modelled from the spec: a [classModifier] or [interfaceModifier]
    node.  The key of a keyword token is the name of its token type. *)
Definition modifier (m : Modifier) : CstElement :=
  match m with
  | Annotation r =>
      CstNode {[ "annotation" := [CstNode {[ "typeName" := [typeName r] ]}] ]}
  | Abstract =>
      CstNode {[ "Abstract" := [IToken "abstract"] ]}
  end.

(** Modelled from the spec: the [classImplements] or [interfaceExtends]
    node, absent when nothing is listed. *)
Definition clause (refs : list NameRef) : list CstElement :=
  match refs with
  | [] => []
  | _ =>
      [CstNode {[ "interfaceTypeList" :=
         [CstNode {[ "interfaceType" := interfaceType <$> refs ]}] ]}]
  end.

Definition typeIdentifier (name : string) : CstElement :=
  CstNode {[ "Identifier" := [IToken name] ]}.

(** Modelled from the spec: the tree the source parser returns for a
    top-level declaration, which the repository does not contain.  The
    [classDeclaration] or [interfaceDeclaration] node of [d], with the
    modifiers, the name and the implements or extends list under the keys
    described above. *)
Definition declaration (d : TypeDeclaration) : CstElement :=
  match kind d with
  | Class =>
      CstNode
        (field "classModifier" (modifier <$> modifiers d)
           {[ "normalClassDeclaration" :=
                [CstNode
                   (field "classImplements" (clause (parents d))
                      {[ "typeIdentifier" := [typeIdentifier (simpleName d)] ]})] ]})
  | Interface =>
      CstNode
        (field "interfaceModifier" (modifier <$> modifiers d)
           {[ "normalInterfaceDeclaration" :=
                [CstNode
                   (field "interfaceExtends" (clause (parents d))
                      {[ "typeIdentifier" := [typeIdentifier (simpleName d)] ]})] ]})
  end.

(** Modelled from the spec: the tree the source parser returns for a
    file whose first top-level declaration is [d]. *)
Definition compilationUnit (d : TypeDeclaration) : CstElement :=
  CstNode {[ "ordinaryCompilationUnit" :=
    [CstNode {[ "typeDeclaration" :=
       [CstNode {[ (match kind d with
                    | Class => "classDeclaration"
                    | Interface => "interfaceDeclaration"
                    end) := [declaration d] ]}] ]}] ]}.

(** Modelled from the spec: the tree the source parser returns for a
    file that holds further top-level declarations after [d], one
    [typeDeclaration] child per declaration in source order. *)
Definition compilationUnitWith (d : TypeDeclaration)
    (others : list TypeDeclaration) : CstElement :=
  CstNode {[ "ordinaryCompilationUnit" :=
    [CstNode {[ "typeDeclaration" :=
       (λ d', CstNode {[ (match kind d' with
                          | Class => "classDeclaration"
                          | Interface => "interfaceDeclaration"
                          end) := [declaration d'] ]}) <$> (d :: others) ]}] ]}.

(** An identifier is not empty and holds no dot. *)
Definition isIdentifier (name : string) : Prop :=
  name ≠ "" ∧ Js.split "."%char name = [name].

End Java.

(** ** The tree as the specification words it

    Section 4.2 of the specification has a simple reference recorded as
    its identifier and a dotted one as its [packageOrTypeName] joined
    with dots, and section 6 has every member of an implements or extends
    list expose such a name reference.  [Described.declaration] is the
    tree of a declaration put that way, at the keys where the extractors
    look for it: each member of the clause holds a [typeName], which
    holds the identifier of a simple reference under [Identifier] and the
    identifiers of a dotted one under [packageOrTypeName].  The parser
    builds no such tree (see [Java.interfaceType]); these trees show what
    the traversal does with references once they are extracted. *)

Module Described.

(** Modelled from the spec: the name reference of section 4.2. *)
Definition typeName (r : Java.NameRef) : CstElement :=
  match Java.qualifier r with
  | [] => CstNode {[ "Identifier" := [IToken (Java.identifier r)] ]}
  | _ =>
      CstNode {[ "packageOrTypeName" :=
        [CstNode {[ "Identifier" :=
           IToken <$> (Java.qualifier r ++ [Java.identifier r]) ]}] ]}
  end.

(** Modelled from the spec: the implements or extends list of section 6,
    absent when nothing is listed. *)
Definition clause (refs : list Java.NameRef) : list CstElement :=
  match refs with
  | [] => []
  | _ =>
      [CstNode {[ "interfaceTypeList" :=
         [CstNode {[ "interfaceType" :=
            (λ r, CstNode {[ "typeName" := [typeName r] ]}) <$> refs ]}] ]}]
  end.

(** Modelled from the spec: a class or interface declaration without
    modifiers, with its name and its implements or extends list. *)
Definition declaration (kind : Java.Kind) (simpleName : string)
    (parents : list Java.NameRef) : CstElement :=
  match kind with
  | Java.Class =>
      CstNode
        {[ "normalClassDeclaration" :=
             [CstNode
                (Java.field "classImplements" (clause parents)
                   {[ "typeIdentifier" := [Java.typeIdentifier simpleName] ]})] ]}
  | Java.Interface =>
      CstNode
        {[ "normalInterfaceDeclaration" :=
             [CstNode
                (Java.field "interfaceExtends" (clause parents)
                   {[ "typeIdentifier" := [Java.typeIdentifier simpleName] ]})] ]}
  end.

(** Modelled from the spec: the tree of a file that holds the
    declaration. *)
Definition compilationUnit (kind : Java.Kind) (simpleName : string)
    (parents : list Java.NameRef) : CstElement :=
  CstNode {[ "ordinaryCompilationUnit" :=
    [CstNode {[ "typeDeclaration" :=
       [CstNode {[ (match kind with
                    | Java.Class => "classDeclaration"
                    | Java.Interface => "interfaceDeclaration"
                    end) := [declaration kind simpleName parents] ]}] ]}] ]}.

End Described.

(** ** Vocabulary of the statements *)

(** The declaration node of the file at [filePath], when the file parses
    and holds one. *)
Definition declarationOf (fs : FileSystem) (filePath : string)
    : option CstElement :=
  JavaFileScanner.parseJavaFile fs filePath
    ≫= JavaFileScanner.getTypeDeclaration.

(** The names under which [findClassDeclaration] can find a declaration
    in [javaFiles]. *)
Definition declaredNames (fs : FileSystem) (javaFiles : list string)
    : gset string :=
  list_to_set
    (omap (λ p, declarationOf fs p ≫= JavaFileScanner.getTypeName) javaFiles).

(** The references of a declaration as the data model has them: the
    [implements] list of a class, the [extends] list of an interface. *)
Definition implementedOrExtendedRefs (node : CstElement) : list string :=
  JavaFileScanner.getImplementedInterfaces node
    ++ JavaFileScanner.getExtendedInterfaces node.

(** A directory entry name: not empty, not [.] or [..], without a
    separator. *)
Definition plainName (entry : string) : Prop :=
  entry ≠ "" ∧ entry ≠ "." ∧ entry ≠ ".." ∧ Js.split "/" entry = [entry].

(** Every directory lists plain names, each once. *)
Fixpoint wellFormed (found : FsEntry) : Prop :=
  match found with
  | FsFile => True
  | FsDir entries =>
      NoDup (fst <$> entries) ∧
      (fix each (rest : list (string * FsEntry)) : Prop :=
         match rest with
         | [] => True
         | (entry, sub) :: rest' =>
             plainName entry ∧ wellFormed sub ∧ each rest'
         end) entries
  end.

(** The files [walkDir] collects below a directory, each as the list of
    entry names leading to it. *)
Fixpoint relativeFiles (found : FsEntry) : list (list string) :=
  match found with
  | FsFile => []
  | FsDir entries =>
      (fix each (rest : list (string * FsEntry)) : list (list string) :=
         match rest with
         | [] => []
         | (entry, sub) :: rest' =>
             match sub with
             | FsDir _ =>
                 if JavaFileScanner.skippedDirectory entry then each rest'
                 else ((entry ::.) <$> relativeFiles sub) ++ each rest'
             | FsFile =>
                 if Js.endsWith entry ".java" then [entry] :: each rest'
                 else each rest'
             end
         end) entries
  end.

(** The pieces [path.normalize] keeps of a path, and the path written
    from such pieces. *)
Definition segmentsOf (p : string) : list string :=
  Path.normalizeSegments (negb (Path.isAbsolute p)) (Js.split "/" p).

Definition render (absolute : bool) (segments : list string) : string :=
  (if absolute then "/" else "") +:+ Js.join "/" segments.

(** Pieces in normal form: some [..] first, none in an absolute path,
    then plain names. *)
Definition normalForm (absolute : bool) (segments : list string) : Prop :=
  ∃ k plains,
    segments = replicate k ".." ++ plains ∧
    (absolute = true → k = 0) ∧
    Forall plainName plains.

(** The path of the file reached from [cur] through the entry names
    [rel]. *)
Definition located (cur : string) (rel : list string) : string :=
  render (Path.isAbsolute cur) (segmentsOf cur ++ rel).

(** The annotation references of a declaration, in source order. *)
Definition annotationRefs (d : Java.TypeDeclaration) : list Java.NameRef :=
  omap (λ m, match m with
             | Java.Annotation r => Some r
             | Java.Abstract => None
             end) (Java.modifiers d).

(** What the extractors push for a reference in the tree of the parser
    (see [typeNameEntries_typeName]): its first identifier. *)
Definition recordedEntries (r : Java.NameRef) : list string :=
  if Js.truthy (Java.leading r) then [Java.leading r] else [].

(** The trailing simple name of each configured annotation, the array
    [simpleAnnotationNames] of [hasConfiguredAnnotation]. *)
Definition simpleAnnotationNames (this : JavaFileScanner.Scanner) : list string :=
  (λ a, Js.lastPart (Js.split "." a)) <$> JavaFileScanner.annotations this.

(** The scanner with one more configured annotation, or one more
    configured target interface. *)
Definition addAnnotation (extra : string) (this : JavaFileScanner.Scanner)
    : JavaFileScanner.Scanner :=
  {| JavaFileScanner.annotations := JavaFileScanner.annotations this ++ [extra];
     JavaFileScanner.interfaces := JavaFileScanner.interfaces this;
     JavaFileScanner.excludeAbstract := JavaFileScanner.excludeAbstract this;
     JavaFileScanner.scanDir := JavaFileScanner.scanDir this |}.

Definition addInterface (extra : string) (this : JavaFileScanner.Scanner)
    : JavaFileScanner.Scanner :=
  {| JavaFileScanner.annotations := JavaFileScanner.annotations this;
     JavaFileScanner.interfaces := JavaFileScanner.interfaces this ++ [extra];
     JavaFileScanner.excludeAbstract := JavaFileScanner.excludeAbstract this;
     JavaFileScanner.scanDir := JavaFileScanner.scanDir this |}.

(** The scanner without its configured target interfaces. *)
Definition clearInterfaces (this : JavaFileScanner.Scanner)
    : JavaFileScanner.Scanner :=
  {| JavaFileScanner.annotations := JavaFileScanner.annotations this;
     JavaFileScanner.interfaces := [];
     JavaFileScanner.excludeAbstract := JavaFileScanner.excludeAbstract this;
     JavaFileScanner.scanDir := JavaFileScanner.scanDir this |}.

(** With more than [n] levels of recursion left, a call on a declared
    name with at most [n] declared names unvisited returns, and the
    answer does not depend on the levels left. *)
Definition returnsWithin (fs : FileSystem) (targetInterface : string)
    (javaFiles : list string) (n : nat) : Prop :=
  ∀ node visited,
    default "unknown" (JavaFileScanner.getTypeName node)
      ∈ declaredNames fs javaFiles →
    size (declaredNames fs javaFiles ∖ visited) ≤ n →
    ∃ answer visited',
      visited ⊆ visited' ∧
      ∀ fuel, n < fuel →
        JavaFileScanner.implementsTargetInterface fs fuel node
          targetInterface javaFiles visited = Some (answer, visited').

(** A chain of implements references from [node] to a declaration that
    lists [targetInterface]: each reference is one the traversal reads
    ([getImplementedInterfaces]) and resolves ([findClassDeclaration]). *)
Inductive implementsThrough (fs : FileSystem) (javaFiles : list string)
    (targetInterface : string) : CstElement → Prop :=
  | through_direct node :
      targetInterface ∈ JavaFileScanner.getImplementedInterfaces node →
      implementsThrough fs javaFiles targetInterface node
  | through_parent node ifaceName ifaceNode filePath :
      ifaceName ∈ JavaFileScanner.getImplementedInterfaces node →
      JavaFileScanner.findClassDeclaration fs ifaceName javaFiles
        = Some (ifaceNode, filePath) →
      implementsThrough fs javaFiles targetInterface ifaceNode →
      implementsThrough fs javaFiles targetInterface node.

(** The declaration named [name] has been examined without success and
    all its resolvable references lead into [visited]. *)
Definition explored (fs : FileSystem) (javaFiles : list string)
    (targetInterface : string) (visited : gset string) (name : string) : Prop :=
  ∀ node filePath,
    JavaFileScanner.findClassDeclaration fs name javaFiles
      = Some (node, filePath) →
    (targetInterface ∉ JavaFileScanner.getImplementedInterfaces node) ∧
    ∀ ifaceName,
      ifaceName ∈ JavaFileScanner.getImplementedInterfaces node →
      is_Some (JavaFileScanner.findClassDeclaration fs ifaceName javaFiles) →
      ifaceName ∈ visited.

(** What a call that returns false leaves behind: the visited set has
    grown, and every name added to it is explored. *)
Definition leavesExplored (fs : FileSystem) (javaFiles : list string)
    (targetInterface : string) (visited visited' : gset string) : Prop :=
  visited ⊆ visited' ∧
  ∀ name, name ∈ visited' → name ∉ visited →
          explored fs javaFiles targetInterface visited' name.

(** What is found in a directory tree by following entry names. *)
Fixpoint fsLookup (found : FsEntry) (rel : list string) : option FsEntry :=
  match rel with
  | [] => Some found
  | entry :: rel' =>
      match found with
      | FsFile => None
      | FsDir entries =>
          (fix each (rest : list (string * FsEntry)) : option FsEntry :=
             match rest with
             | [] => None
             | (name, sub) :: rest' =>
                 if bool_decide (name = entry) then fsLookup sub rel'
                 else each rest'
             end) entries
      end
  end.

(** [rel] names a file that [walkDir] is to collect: a non-directory
    whose name ends in [.java], reached through directories none of which
    is skipped. *)
Definition collectable (found : FsEntry) (rel : list string) : Prop :=
  fsLookup found rel = Some FsFile ∧
  Js.endsWith (List.last rel "") ".java" = true ∧
  Forall (λ entry, JavaFileScanner.skippedDirectory entry = false)
    (removelast rel).

(** The scanner with [excludeAbstract] set. *)
Definition setExcludeAbstract (flag : bool) (this : JavaFileScanner.Scanner)
    : JavaFileScanner.Scanner :=
  {| JavaFileScanner.annotations := JavaFileScanner.annotations this;
     JavaFileScanner.interfaces := JavaFileScanner.interfaces this;
     JavaFileScanner.excludeAbstract := flag;
     JavaFileScanner.scanDir := JavaFileScanner.scanDir this |}.

(** A command-line argument that the loop of [main] does not act on. *)
Definition plainArgument (arg : string) : Prop :=
  arg ≠ "--config" ∧ arg ≠ "--dir" ∧ arg ≠ "--help" ∧ arg ≠ "-h".

(** The cache holds only what reading and parsing yields. *)
Definition cacheConsistent (fs : FileSystem)
    (parsedFiles : gmap string CstElement) : Prop :=
  parsedFiles ⊆ fsParsed fs.

(** ** Concrete file sets *)

Module Examples.

Import Java.

Definition bare (name : string) : NameRef := mkNameRef [] name.

(** [interface Base {}], [interface Mid extends Base {}],
    [class Impl implements Mid {}], one per file under [/repo]. *)
Definition Base : TypeDeclaration := mkTypeDeclaration Interface "Base" [] [].
Definition Mid : TypeDeclaration :=
  mkTypeDeclaration Interface "Mid" [] [bare "Base"].
Definition Impl : TypeDeclaration :=
  mkTypeDeclaration Class "Impl" [] [bare "Mid"].

Definition chainFs : FileSystem :=
  {| fsRoot := Some (FsDir [("Base.java", FsFile); ("Impl.java", FsFile);
                            ("Mid.java", FsFile)]);
     fsParsed := list_to_map
       [("/repo/Base.java", compilationUnit Base);
        ("/repo/Impl.java", compilationUnit Impl);
        ("/repo/Mid.java", compilationUnit Mid)] |}.

(** The same three files with the trees as the specification words
    them. *)
Definition describedMid : CstElement :=
  Described.declaration Interface "Mid" [bare "Base"].
Definition describedImpl : CstElement :=
  Described.declaration Class "Impl" [bare "Mid"].

Definition describedChainFs : FileSystem :=
  {| fsRoot := Some (FsDir [("Base.java", FsFile); ("Impl.java", FsFile);
                            ("Mid.java", FsFile)]);
     fsParsed := list_to_map
       [("/repo/Base.java", Described.compilationUnit Interface "Base" []);
        ("/repo/Impl.java", Described.compilationUnit Class "Impl" [bare "Mid"]);
        ("/repo/Mid.java",
         Described.compilationUnit Interface "Mid" [bare "Base"])] |}.

Definition chainScanner : JavaFileScanner.Scanner :=
  JavaFileScanner.new
    (JavaFileScanner.mkConfig None (Some ["Base"]) None (Some "/repo")).

(** [@com.example.Service class Orders implements com.example.Handler {}]. *)
Definition comExampleService : NameRef := mkNameRef ["com"; "example"] "Service".
Definition comExampleHandler : NameRef := mkNameRef ["com"; "example"] "Handler".
Definition Orders : TypeDeclaration :=
  mkTypeDeclaration Class "Orders" [Annotation comExampleService]
    [comExampleHandler].

(** [abstract interface Marker {}]. *)
Definition Marker : TypeDeclaration :=
  mkTypeDeclaration Interface "Marker" [Abstract] [].

(** [@Service interface Api {}] and a scanner configured with [Service]. *)
Definition Api : TypeDeclaration :=
  mkTypeDeclaration Interface "Api" [Annotation (bare "Service")] [].

Definition serviceScanner : JavaFileScanner.Scanner :=
  JavaFileScanner.new
    (JavaFileScanner.mkConfig (Some ["Service"]) None None (Some "/repo")).

Definition apiFs : FileSystem :=
  {| fsRoot := Some (FsDir [("Api.java", FsFile)]);
     fsParsed := list_to_map [("/repo/Api.java", compilationUnit Api)] |}.

Definition ordersFs : FileSystem :=
  {| fsRoot := Some (FsDir [("Orders.java", FsFile)]);
     fsParsed := list_to_map [("/repo/Orders.java", compilationUnit Orders)] |}.

(** [@Service abstract class Shape {}]. *)
Definition Shape : TypeDeclaration :=
  mkTypeDeclaration Class "Shape" [Annotation (bare "Service"); Abstract] [].

Definition shapeFs : FileSystem :=
  {| fsRoot := Some (FsDir [("Shape.java", FsFile)]);
     fsParsed := list_to_map [("/repo/Shape.java", compilationUnit Shape)] |}.

(** Two files that both declare a type named [T], in two sibling
    directories [a] and [a-b] listed in name order. *)
Definition TClass : TypeDeclaration := mkTypeDeclaration Class "T" [] [].
Definition TInterface : TypeDeclaration :=
  mkTypeDeclaration Interface "T" [] [].

Definition collisionFs : FileSystem :=
  {| fsRoot := Some (FsDir [("a", FsDir [("T.java", FsFile)]);
                            ("a-b", FsDir [("T.java", FsFile)])]);
     fsParsed := list_to_map
       [("/r/a/T.java", compilationUnit TClass);
        ("/r/a-b/T.java", compilationUnit TInterface)] |}.

(** [interface X extends Y {}] and [interface Y extends X {}], with the
    references exposed as the specification words them. *)
Definition X : CstElement := Described.declaration Interface "X" [bare "Y"].
Definition Y : CstElement := Described.declaration Interface "Y" [bare "X"].

Definition cycleFs : FileSystem :=
  {| fsRoot := Some (FsDir [("X.java", FsFile); ("Y.java", FsFile)]);
     fsParsed := list_to_map
       [("/repo/X.java", Described.compilationUnit Interface "X" [bare "Y"]);
        ("/repo/Y.java", Described.compilationUnit Interface "Y" [bare "X"])] |}.

(** The same cycle between classes: [class P implements Q {}] and
    [class Q implements P {}]. *)
Definition P : CstElement := Described.declaration Class "P" [bare "Q"].
Definition Q : CstElement := Described.declaration Class "Q" [bare "P"].

Definition classCycleFs : FileSystem :=
  {| fsRoot := Some (FsDir [("P.java", FsFile); ("Q.java", FsFile)]);
     fsParsed := list_to_map
       [("/repo/P.java", Described.compilationUnit Class "P" [bare "Q"]);
        ("/repo/Q.java", Described.compilationUnit Class "Q" [bare "P"])] |}.

(** [@Service class Plain {}]. *)
Definition Plain : TypeDeclaration :=
  mkTypeDeclaration Class "Plain" [Annotation (bare "Service")] [].

Definition plainFs : FileSystem :=
  {| fsRoot := Some (FsDir [("Plain.java", FsFile)]);
     fsParsed := list_to_map [("/repo/Plain.java", compilationUnit Plain)] |}.

(** The default scan directory, with that class in it. *)
Definition defaultDirScanner : JavaFileScanner.Scanner :=
  JavaFileScanner.new
    (JavaFileScanner.mkConfig (Some ["Service"]) None None None).

Definition defaultDirFs : FileSystem :=
  {| fsRoot := Some (FsDir [("Plain.java", FsFile)]);
     fsParsed := list_to_map
       [("src/main/java/Plain.java", compilationUnit Plain)] |}.

(** [class Direct implements Base {}] next to [interface Base {}], as the
    parser builds the trees and as the specification words them. *)
Definition Direct : TypeDeclaration :=
  mkTypeDeclaration Class "Direct" [] [bare "Base"].

Definition directFs : FileSystem :=
  {| fsRoot := Some (FsDir [("Base.java", FsFile); ("Direct.java", FsFile)]);
     fsParsed := list_to_map
       [("/repo/Base.java", compilationUnit Base);
        ("/repo/Direct.java", compilationUnit Direct)] |}.

Definition describedDirect : CstElement :=
  Described.declaration Class "Direct" [bare "Base"].

Definition describedDirectFs : FileSystem :=
  {| fsRoot := Some (FsDir [("Base.java", FsFile); ("Direct.java", FsFile)]);
     fsParsed := list_to_map
       [("/repo/Base.java", Described.compilationUnit Interface "Base" []);
        ("/repo/Direct.java",
         Described.compilationUnit Class "Direct" [bare "Base"])] |}.

(** A scanner configured with the qualified name [com.example.Service]. *)
Definition qualifiedScanner : JavaFileScanner.Scanner :=
  JavaFileScanner.new
    (JavaFileScanner.mkConfig (Some ["com.example.Service"]) None None
       (Some "/repo")).

(** [class Via implements Direct {}]: a chain [Via], [Direct], [Base]. *)
Definition describedVia : CstElement :=
  Described.declaration Class "Via" [bare "Direct"].

Definition describedViaFs : FileSystem :=
  {| fsRoot := Some (FsDir [("Base.java", FsFile); ("Direct.java", FsFile);
                            ("Via.java", FsFile)]);
     fsParsed := list_to_map
       [("/repo/Base.java", Described.compilationUnit Interface "Base" []);
        ("/repo/Direct.java",
         Described.compilationUnit Class "Direct" [bare "Base"]);
        ("/repo/Via.java",
         Described.compilationUnit Class "Via" [bare "Direct"])] |}.


(** Two scanners with the same configured names, in different order and
    with a repeat. *)
Definition twoAnnotations : JavaFileScanner.Scanner :=
  JavaFileScanner.new
    (JavaFileScanner.mkConfig (Some ["Service"; "Component"]) (Some ["Base"])
       None (Some "/repo")).

Definition twoAnnotationsShuffled : JavaFileScanner.Scanner :=
  JavaFileScanner.new
    (JavaFileScanner.mkConfig (Some ["Component"; "Service"; "Service"])
       (Some ["Base"; "Base"]) None (Some "/repo")).

(** A run of the script installed in [/opt/scanner], with a
    configuration next to it that names [/repo]. *)
Definition world : Main.World :=
  {| Main.dirname := "/opt/scanner";
     Main.configs := list_to_map
       [("/opt/scanner/scan-config.json",
         JavaFileScanner.mkConfig (Some ["Service"]) None None (Some "/repo"))];
     Main.directories := list_to_map
       [("/repo", FsDir [("Plain.java", FsFile)]);
        ("/other", FsDir [("Shape.java", FsFile)])];
     Main.sources := list_to_map
       [("/repo/Plain.java", compilationUnit Plain);
        ("/other/Shape.java", compilationUnit Shape)] |}.

(** A scanner configured with the qualified interface name that
    [Orders] implements. *)
Definition handlerScanner : JavaFileScanner.Scanner :=
  JavaFileScanner.new
    (JavaFileScanner.mkConfig None (Some ["com.example.Handler"]) None
       (Some "/repo")).




(** Two paths whose names differ in a character above U+FFFF and one
    between U+E000 and U+FFFF. *)
Definition fullwidthPath : string := "/r/Ａ.java".
Definition emojiPath : string := "/r/😀.java".

End Examples.

(** * Properties *)

Import JavaFileScanner.

(** ** Splitting and joining strings *)

Lemma split_nonempty c s : Js.split c s ≠ [].
Proof.
  destruct s as [|a rest]; [done|]. cbn.
  destruct (Ascii.eqb a c); [done|]. by destruct (Js.split c rest).
Qed.

Lemma split_after_separator c s1 s2 :
  ∃ init, init ≠ [] ∧
          Js.split c (s1 +:+ String c s2) = init ++ Js.split c s2.
Proof.
  induction s1 as [|a s1 (init & Hinit & IH)].
  - change ("" +:+ String c s2) with (String c s2).
    exists [""]. split; [done|]. cbn. by rewrite Ascii.eqb_refl.
  - change (String a s1 +:+ String c s2)
      with (String a (s1 +:+ String c s2)).
    cbn [Js.split]. rewrite IH.
    destruct (Ascii.eqb a c).
    + by exists ("" :: init).
    + destruct init as [|piece pieces]; [done|].
      by exists (String a piece :: pieces).
Qed.

Lemma lastPart_after_separator c s1 s2 :
  Js.lastPart (Js.split c (s1 +:+ String c s2)) = Js.lastPart (Js.split c s2).
Proof.
  destruct (split_after_separator c s1 s2) as (init & _ & ->).
  unfold Js.lastPart. pose proof (split_nonempty c s2) as Hne.
  induction init as [|i init IH]; [done|]. cbn.
  destruct (init ++ Js.split c s2) eqn:Happ; [|done].
  by apply app_eq_nil in Happ as [_ ?].
Qed.

Lemma append_assoc (s1 s2 s3 : string) :
  (s1 +:+ s2) +:+ s3 = s1 +:+ s2 +:+ s3.
Proof.
  induction s1 as [|a s1 IH]; [done|].
  change (String a ((s1 +:+ s2) +:+ s3) = String a (s1 +:+ s2 +:+ s3)).
  by rewrite IH.
Qed.

Lemma join_snoc sep parts last :
  parts ≠ [] →
  Js.join sep (parts ++ [last]) = Js.join sep parts +:+ sep +:+ last.
Proof.
  unfold Js.join. induction parts as [|p parts IH]; [done|]. intros _.
  destruct parts as [|p' parts]; [done|].
  cbn [app String.concat] in *. rewrite IH by done.
  by rewrite !append_assoc.
Qed.

Section Strings.

Context (c : Ascii.ascii).

Lemma split_cons a s :
  Js.split c (String a s) =
    if Ascii.eqb a c then "" :: Js.split c s
    else match Js.split c s with
         | piece :: pieces => String a piece :: pieces
         | [] => [String a ""]
         end.
Proof. done. Qed.

Lemma split_app_separator s1 s2 :
  Js.split c (s1 +:+ String c s2) = Js.split c s1 ++ Js.split c s2.
Proof.
  induction s1 as [|a s1 IH].
  - change ("" +:+ String c s2) with (String c s2).
    by rewrite split_cons, Ascii.eqb_refl.
  - change (String a s1 +:+ String c s2)
      with (String a (s1 +:+ String c s2)).
    rewrite !split_cons, IH. destruct (Ascii.eqb a c); [done|].
    pose proof (split_nonempty c s1). by destruct (Js.split c s1).
Qed.

Lemma split_free_cons a s :
  Js.split c (String a s) = [String a s] ↔ a ≠ c ∧ Js.split c s = [s].
Proof.
  rewrite split_cons. destruct (Ascii.eqb_spec a c) as [->|Hne].
  - split; [done|]. by intros [? _].
  - pose proof (split_nonempty c s).
    destruct (Js.split c s) as [|piece pieces]; [done|].
    split.
    + intros [= -> ->]. done.
    + intros [_ [= -> ->]]. done.
Qed.

Lemma split_pieces_free s piece :
  piece ∈ Js.split c s → Js.split c piece = [piece].
Proof.
  revert piece. induction s as [|a s IH]; intros piece.
  - intros ->%list_elem_of_singleton. done.
  - rewrite split_cons. destruct (Ascii.eqb_spec a c) as [->|Hne].
    + intros [->|?]%elem_of_cons; [done|by apply IH].
    + pose proof (split_nonempty c s).
      destruct (Js.split c s) as [|p0 ps]; [done|].
      intros [->|?]%elem_of_cons.
      * apply split_free_cons. split; [done|]. apply IH, elem_of_cons. by left.
      * apply IH, elem_of_cons. by right.
Qed.

Lemma join_cons sep p p' parts :
  Js.join sep (p :: p' :: parts) = p +:+ sep +:+ Js.join sep (p' :: parts).
Proof. done. Qed.

Lemma split_join parts :
  parts ≠ [] → Forall (λ s, Js.split c s = [s]) parts →
  Js.split c (Js.join (String c "") parts) = parts.
Proof.
  induction parts as [|p parts IH]; [done|].
  intros _ [Hp Hparts]%Forall_cons.
  destruct parts as [|p' parts]; [done|]. rewrite join_cons.
  change (String c "" +:+ Js.join (String c "") (p' :: parts))
    with (String c (Js.join (String c "") (p' :: parts))).
  by rewrite split_app_separator, Hp, IH.
Qed.

Lemma endsWith_free s :
  Js.split c s = [s] → Js.endsWith s (String c "") = false.
Proof.
  induction s as [|a s IH]; [done|].
  intros [Hne Hs]%split_free_cons. cbn [Js.endsWith].
  rewrite IH, orb_false_r by done. cbn.
  destruct (Ascii.eqb_spec a c); [done|]. done.
Qed.

Lemma endsWith_app s1 s2 suf :
  s2 ≠ "" → suf ≠ "" →
  Js.endsWith s2 suf = false → String.length suf ≤ String.length s2 →
  Js.endsWith (s1 +:+ s2) suf = false.
Proof.
  intros Hs2 Hsuf Hend Hlen. induction s1 as [|a s1 IH]; [done|].
  change (String a s1 +:+ s2) with (String a (s1 +:+ s2)).
  cbn [Js.endsWith]. rewrite IH, orb_false_r.
  apply String.eqb_neq. intros Heq.
  apply (f_equal String.length) in Heq. cbn in Heq.
  assert (String.length (s1 +:+ s2) = String.length s1 + String.length s2).
  { clear. induction s1 as [|b s1 IH]; [done|].
    change (String b s1 +:+ s2) with (String b (s1 +:+ s2)). cbn. by rewrite IH. }
  lia.
Qed.

End Strings.

(** ** Reading the tree of a declaration *)

Section Extraction.

Implicit Types (d : Java.TypeDeclaration) (r : Java.NameRef).

Lemma lookup_field k v m k' :
  Java.field k v m !! k' =
    if decide (k = k') then
      match v with [] => m !! k' | _ => Some v end
    else m !! k'.
Proof.
  unfold Java.field. destruct v; case_decide; subst; try done.
  - by rewrite lookup_insert_eq.
  - by rewrite lookup_insert_ne.
Qed.

Lemma head_identifiers r :
  head (IToken <$> (Java.qualifier r ++ [Java.identifier r]))
    = Some (IToken (Java.leading r)).
Proof. unfold Java.leading. by destruct (Java.qualifier r). Qed.

(** Of a [typeName] as the parser builds it the extractors push the first
    identifier: it is what [Identifier[0]] holds, and there is no
    [packageOrTypeName] child. *)
Lemma typeNameEntries_typeName r :
  typeNameEntries (Java.typeName r) = recordedEntries r.
Proof.
  unfold typeNameEntries, recordedEntries, Java.typeName, Java.identifiers,
    Cst.first, Cst.child.
  cbn [Cst.children mbind option_bind].
  rewrite lookup_singleton_eq, lookup_singleton_ne by done.
  cbn [mbind option_bind]. rewrite head_identifiers.
  unfold Cst.truthyImage. cbn [mbind option_bind Cst.image].
  destruct (Js.truthy (Java.leading r)); by rewrite app_nil_r.
Qed.

Lemma entriesOf_annotation r :
  entriesOf (CstNode {[ "typeName" := [Java.typeName r] ]}) = recordedEntries r.
Proof.
  unfold entriesOf, Cst.first, Cst.child. cbn [Cst.children mbind option_bind].
  rewrite lookup_singleton_eq. cbn [mbind option_bind head].
  apply typeNameEntries_typeName.
Qed.

(** A member of an implements or extends list has no [typeName] child. *)
Lemma entriesOf_interfaceType r : entriesOf (Java.interfaceType r) = [].
Proof.
  unfold entriesOf, Java.interfaceType, Cst.first, Cst.child.
  cbn [Cst.children mbind option_bind].
  by rewrite lookup_singleton_ne.
Qed.

Lemma annotations_of_modifiers (mods : list Java.Modifier) :
  (Java.modifier <$> mods) ≫= (λ modifier,
     match Cst.child modifier "annotation" with
     | Some anns => anns ≫= entriesOf
     | None => []
     end)
  = omap (λ m, match m with
               | Java.Annotation r => Some r
               | Java.Abstract => None
               end) mods ≫= recordedEntries.
Proof.
  induction mods as [|m mods IH]; [done|].
  rewrite fmap_cons, bind_cons, IH.
  destruct m as [r|]; unfold Cst.child; cbn [Java.modifier Cst.children
    mbind option_bind omap list_omap].
  - rewrite lookup_singleton_eq, !bind_cons, entriesOf_annotation.
    change ([] ≫= entriesOf) with (@nil string). by rewrite app_nil_r.
  - by rewrite lookup_singleton_ne.
Qed.

Lemma getAnnotations_class d :
  Java.kind d = Java.Class →
  getAnnotations (Java.declaration d) = annotationRefs d ≫= recordedEntries.
Proof.
  intros Hk. unfold annotationRefs. rewrite <- annotations_of_modifiers.
  unfold getAnnotations, Java.declaration. rewrite Hk.
  unfold Cst.child at 1. cbn [Cst.children mbind option_bind].
  rewrite lookup_field. case_decide; [|done].
  destruct (Java.modifiers d) as [|m0 ms]; [by simplify_map_eq|done].
Qed.

Lemma getAnnotations_interface d :
  Java.kind d = Java.Interface → getAnnotations (Java.declaration d) = [].
Proof.
  intros Hk. unfold getAnnotations, Java.declaration, Cst.child. rewrite Hk.
  cbn [Cst.children mbind option_bind]. rewrite lookup_field.
  case_decide; [done|]. by simplify_map_eq.
Qed.

(** On any tree, [isAbstract] looks for an [abstractKeyword] child among
    the [classModifier] children of the node. *)
Lemma isAbstract_true node :
  isAbstract node = true ↔
  ∃ mods modifier,
    Cst.child node "classModifier" = Some mods ∧ modifier ∈ mods ∧
    is_Some (Cst.first modifier "abstractKeyword").
Proof.
  unfold isAbstract. destruct (Cst.child node "classModifier") as [mods|].
  - rewrite existsb_exists. split.
    + intros (modifier & Hin%list_elem_of_In & Hkw%bool_decide_eq_true).
      by exists mods, modifier.
    + intros (? & modifier & [= <-] & Hin & Hkw). exists modifier.
      split; [by apply list_elem_of_In|by apply bool_decide_eq_true].
  - split; [done|]. by intros (? & ? & ? & _).
Qed.

(** No modifier node of the parser has an [abstractKeyword] child. *)
Lemma no_abstractKeyword (m : Java.Modifier) :
  Cst.first (Java.modifier m) "abstractKeyword" = None.
Proof.
  destruct m as [r|]; unfold Cst.first, Cst.child;
    cbn [Java.modifier Cst.children mbind option_bind];
    by rewrite lookup_singleton_ne.
Qed.

Lemma isAbstract_declaration d : isAbstract (Java.declaration d) = false.
Proof.
  apply not_true_is_false. rewrite isAbstract_true.
  intros (mods & modifier & Hmods & Hin & Hkw).
  unfold Java.declaration, Cst.child in Hmods.
  destruct (Java.kind d); cbn [Cst.children mbind option_bind] in Hmods;
    rewrite lookup_field in Hmods; case_decide; try done;
    try (by simplify_map_eq).
  assert (mods = Java.modifier <$> Java.modifiers d) as ->.
  { destruct (Java.modifiers d) as [|m0 ms]; [by simplify_map_eq|].
    by injection Hmods as <-. }
  apply list_elem_of_fmap in Hin as (m & -> & _).
  rewrite no_abstractKeyword in Hkw. by destruct Hkw.
Qed.

Lemma entries_of_clause (refs : list Java.NameRef) :
  interfaceTypeEntries (head (Java.clause refs)) = [].
Proof.
  destruct refs as [|r0 rs]; [done|].
  unfold Java.clause, interfaceTypeEntries, Cst.first, Cst.child.
  generalize (r0 :: rs). intros refs. cbn [head Cst.children mbind option_bind].
  rewrite lookup_singleton_eq. cbn [mbind option_bind head Cst.children].
  rewrite lookup_singleton_eq. cbn [default]. unfold id.
  induction refs as [|r refs IH]; [done|].
  by rewrite fmap_cons, bind_cons, IH, entriesOf_interfaceType.
Qed.

(** Nothing is read from an implements clause as the parser builds it,
    and an interface declaration has none. *)
Lemma getImplementedInterfaces_declaration d :
  getImplementedInterfaces (Java.declaration d) = [].
Proof.
  unfold getImplementedInterfaces, Java.declaration.
  destruct (Java.kind d).
  - transitivity (interfaceTypeEntries (head (Java.clause (Java.parents d))));
      [|apply entries_of_clause].
    f_equal.
    unfold Cst.path, Cst.first, Cst.child. cbn [Cst.children mbind option_bind].
    rewrite lookup_field. case_decide; [done|].
    rewrite lookup_singleton_eq. cbn [mbind option_bind head Cst.children].
    rewrite lookup_field. case_decide; [|done].
    destruct (Java.clause (Java.parents d)) as [|c cs] eqn:Hc;
      [by simplify_map_eq|]. cbn.
    unfold Java.clause in Hc. by destruct (Java.parents d); simplify_eq.
  - unfold Cst.path, Cst.first, Cst.child. cbn [Cst.children mbind option_bind].
    rewrite lookup_field. case_decide; [done|]. by simplify_map_eq.
Qed.

Lemma getExtendedInterfaces_declaration d :
  getExtendedInterfaces (Java.declaration d) = [].
Proof.
  unfold getExtendedInterfaces, Java.declaration.
  destruct (Java.kind d).
  - unfold Cst.path, Cst.first, Cst.child. cbn [Cst.children mbind option_bind].
    rewrite lookup_field. case_decide; [done|]. by simplify_map_eq.
  - transitivity (interfaceTypeEntries (head (Java.clause (Java.parents d))));
      [|apply entries_of_clause].
    f_equal.
    unfold Cst.path, Cst.first, Cst.child. cbn [Cst.children mbind option_bind].
    rewrite lookup_field. case_decide; [done|].
    rewrite lookup_singleton_eq. cbn [mbind option_bind head Cst.children].
    rewrite lookup_field. case_decide; [|done].
    destruct (Java.clause (Java.parents d)) as [|c cs] eqn:Hc;
      [by simplify_map_eq|]. cbn.
    unfold Java.clause in Hc. by destruct (Java.parents d); simplify_eq.
Qed.

Lemma getTypeName_declaration d :
  getTypeName (Java.declaration d)
    = if Js.truthy (Java.simpleName d) then Some (Java.simpleName d) else None.
Proof.
  unfold getTypeName, Java.declaration, Cst.path, Cst.first, Cst.child.
  destruct (Java.kind d); cbn [Cst.children mbind option_bind];
    rewrite !lookup_field; repeat case_decide; try done;
    simplify_map_eq; cbn; rewrite !lookup_field;
    repeat case_decide; try done; simplify_map_eq; cbn;
    unfold Cst.truthyImage; cbn; by destruct (Js.truthy _).
Qed.

Lemma getTypeDeclaration_compilationUnit d :
  getTypeDeclaration (Java.compilationUnit d) = Some (Java.declaration d).
Proof.
  unfold getTypeDeclaration, Java.compilationUnit, Cst.first, Cst.child.
  cbn. rewrite lookup_singleton_eq. cbn. rewrite lookup_singleton_eq. cbn.
  destruct (Java.kind d).
  - by rewrite lookup_singleton_eq.
  - rewrite lookup_singleton_ne by done. cbn. by rewrite lookup_singleton_eq.
Qed.

End Extraction.

(** ** The symbol lookup *)

Section Lookup.

Context (fs : FileSystem).

Lemma findClassDeclaration_step className filePath rest :
  findClassDeclaration fs className (filePath :: rest) =
    match declarationOf fs filePath with
    | Some typeNode =>
        if bool_decide (getTypeName typeNode = Some className)
        then Some (typeNode, filePath)
        else findClassDeclaration fs className rest
    | None => findClassDeclaration fs className rest
    end.
Proof.
  unfold declarationOf. cbn.
  destruct (parseJavaFile fs filePath) as [ast|]; [|done]. cbn.
  by destruct (getTypeDeclaration ast).
Qed.

Lemma findClassDeclaration_Some className javaFiles node filePath :
  findClassDeclaration fs className javaFiles = Some (node, filePath) →
  ∃ before after,
    javaFiles = before ++ filePath :: after ∧
    declarationOf fs filePath = Some node ∧
    getTypeName node = Some className ∧
    ∀ p n, p ∈ before → declarationOf fs p = Some n →
           getTypeName n ≠ Some className.
Proof.
  induction javaFiles as [|p rest IH]; [done|].
  rewrite findClassDeclaration_step.
  destruct (declarationOf fs p) as [typeNode|] eqn:Hp.
  - case_bool_decide as Hname.
    + intros [= <- <-]. exists [], rest. repeat split; [done..|].
      by intros ? ? ?%elem_of_nil.
    + intros (before & after & -> & ? & ? & Hfirst)%IH.
      exists (p :: before), after. repeat split; [done..|].
      intros p' n [->|?]%elem_of_cons ?; [congruence|eauto].
  - intros (before & after & -> & ? & ? & Hfirst)%IH.
    exists (p :: before), after. repeat split; [done..|].
    intros p' n [->|?]%elem_of_cons ?; [congruence|eauto].
Qed.

Lemma findClassDeclaration_is_Some className javaFiles p n :
  p ∈ javaFiles → declarationOf fs p = Some n →
  getTypeName n = Some className →
  is_Some (findClassDeclaration fs className javaFiles).
Proof.
  induction javaFiles as [|q rest IH]; [by intros ?%elem_of_nil|].
  intros [->|Hin]%elem_of_cons Hn Hname; rewrite findClassDeclaration_step.
  - rewrite Hn, bool_decide_eq_true_2 by done. eauto.
  - destruct (declarationOf fs q); [case_bool_decide|]; eauto.
Qed.

Lemma findClassDeclaration_declared className javaFiles node filePath :
  findClassDeclaration fs className javaFiles = Some (node, filePath) →
  getTypeName node = Some className ∧ className ∈ declaredNames fs javaFiles.
Proof.
  intros (before & after & -> & Hdecl & Hname & _)%findClassDeclaration_Some.
  split; [done|]. unfold declaredNames.
  apply elem_of_list_to_set, list_elem_of_omap.
  exists filePath. split; [set_solver|]. by rewrite Hdecl.
Qed.

Lemma declaredNames_size javaFiles :
  size (declaredNames fs javaFiles) ≤ length javaFiles.
Proof.
  unfold declaredNames. induction javaFiles as [|p rest IH]; [done|].
  cbn. destruct (declarationOf fs p ≫= getTypeName); cbn; [|lia].
  rewrite size_union_alt, size_singleton.
  etrans; [|apply le_n_S, IH].
  apply le_n_S, subseteq_size. by intros x [? _]%elem_of_difference.
Qed.

End Lookup.

(** ** Termination of the traversal *)

Section Termination.

Context (fs : FileSystem) (targetInterface : string) (javaFiles : list string).

Local Abbreviation names := (declaredNames fs javaFiles).
Local Abbreviation run fuel :=
  (λ node seen,
     implementsTargetInterface fs fuel node targetInterface javaFiles seen).
Local Abbreviation resolve :=
  (λ ifaceName, findClassDeclaration fs ifaceName javaFiles).
Local Abbreviation returnsWithin :=
  (returnsWithin fs targetInterface javaFiles).

Lemma unvisited_shrinks (visited visited' : gset string) n :
  visited ⊆ visited' → size (names ∖ visited) ≤ n → size (names ∖ visited') ≤ n.
Proof.
  intros Hsub Hn. etrans; [|exact Hn]. apply subseteq_size. set_solver.
Qed.

Lemma parentsImplement_returns n implemented visited :
  returnsWithin n →
  size (names ∖ visited) ≤ n →
  ∃ answer visited',
    visited ⊆ visited' ∧
    ∀ fuel, n < fuel →
      parentsImplement (run fuel) resolve implemented visited
        = Some (answer, visited').
Proof.
  intros Hrec. revert visited.
  induction implemented as [|ifaceName rest IH]; intros visited Hsize.
  { exists false, visited. split; [done|]. by intros. }
  cbn [parentsImplement].
  destruct (findClassDeclaration fs ifaceName javaFiles)
    as [[ifaceNode filePath]|] eqn:Hfind; [|by apply IH].
  apply findClassDeclaration_declared in Hfind as [Hname Hin].
  destruct (Hrec ifaceNode visited) as (answer & visited1 & Hsub & Hrun);
    [by rewrite Hname|done|].
  destruct answer.
  - exists true, visited1. split; [done|].
    intros fuel Hfuel. by rewrite Hrun.
  - destruct (IH visited1) as (answer & visited2 & Hsub2 & Hloop);
      [by eapply unvisited_shrinks|].
    exists answer, visited2. split; [set_solver|].
    intros fuel Hfuel. rewrite Hrun by done. by apply Hloop.
Qed.

Lemma returnsWithin_all n : returnsWithin n.
Proof.
  induction n as [|n IH]; intros node visited Hkey Hsize.
  - assert (default "unknown" (getTypeName node) ∈ visited) as Hseen.
    { assert (size (names ∖ visited) = 0) as Hempty%size_empty_inv by lia.
      set_solver. }
    exists false, visited. split; [done|].
    intros [|fuel] ?; [lia|]. cbn. by rewrite bool_decide_eq_true_2.
  - destruct (decide (default "unknown" (getTypeName node) ∈ visited))
      as [Hseen|Hfresh].
    { exists false, visited. split; [done|].
      intros [|fuel] ?; [lia|]. cbn. by rewrite bool_decide_eq_true_2. }
    set (visited1 := {[default "unknown" (getTypeName node)]} ∪ visited).
    destruct (Js.includes (getImplementedInterfaces node) targetInterface)
      eqn:Hdirect.
    { exists true, visited1. split; [set_solver|].
      intros [|fuel] ?; [lia|]. cbn.
      by rewrite bool_decide_eq_false_2, Hdirect. }
    assert (size (names ∖ visited1) ≤ n) as Hsize1.
    { apply Nat.lt_succ_r. eapply Nat.lt_le_trans; [|exact Hsize].
      apply subset_size. set_solver. }
    destruct (parentsImplement_returns n (getImplementedInterfaces node)
                visited1 IH Hsize1) as (answer & visited2 & Hsub & Hloop).
    exists answer, visited2. split; [set_solver|].
    intros [|fuel] ?; [lia|]. cbn.
    rewrite bool_decide_eq_false_2, Hdirect by done.
    apply Hloop. lia.
Qed.

(** Any call returns once given [depthBound javaFiles] levels, whatever
    the node and the set it starts from. *)
Lemma implementsTargetInterface_returns node visited :
  ∃ answer visited',
    visited ⊆ visited' ∧
    ∀ fuel, depthBound javaFiles ≤ fuel →
      run fuel node visited = Some (answer, visited').
Proof.
  pose (n := length javaFiles).
  assert (∀ seen : gset string, size (names ∖ seen) ≤ n) as Hsize.
  { intros seen. etrans; [|apply (declaredNames_size fs)].
    apply subseteq_size. set_solver. }
  destruct (decide (default "unknown" (getTypeName node) ∈ visited))
    as [Hseen|Hfresh].
  { exists false, visited. split; [done|].
    intros [|fuel] ?; [unfold depthBound in *; lia|]. cbn.
    by rewrite bool_decide_eq_true_2. }
  set (visited1 := {[default "unknown" (getTypeName node)]} ∪ visited).
  destruct (Js.includes (getImplementedInterfaces node) targetInterface)
    eqn:Hdirect.
  { exists true, visited1. split; [set_solver|].
    intros [|fuel] ?; [unfold depthBound in *; lia|]. cbn.
    by rewrite bool_decide_eq_false_2, Hdirect. }
  destruct (parentsImplement_returns n (getImplementedInterfaces node)
              visited1 (returnsWithin_all n) (Hsize visited1))
    as (answer & visited2 & Hsub & Hloop).
  exists answer, visited2. split; [set_solver|].
  intros [|fuel] Hfuel; [unfold depthBound in *; lia|]. cbn.
  rewrite bool_decide_eq_false_2, Hdirect by done.
  apply Hloop. unfold depthBound in Hfuel. lia.
Qed.

End Termination.

(** ** The resolver on declarations without an implements clause *)

Lemma implementsTarget_nothing_implemented fs node target javaFiles :
  getImplementedInterfaces node = [] →
  implementsTarget fs node target javaFiles = false.
Proof.
  intros Hnone. unfold implementsTarget, depthBound.
  cbn [implementsTargetInterface]. rewrite Hnone.
  by rewrite bool_decide_eq_false_2 by set_solver.
Qed.

(** On the tree of the parser no declaration implements anything. *)
Lemma implementsTarget_declaration fs d target javaFiles :
  implementsTarget fs (Java.declaration d) target javaFiles = false.
Proof.
  apply implementsTarget_nothing_implemented,
    getImplementedInterfaces_declaration.
Qed.

(** Where the implements clause exposes its names as the specification
    words it, a class that lists the target in its own clause is
    matched; on the tree of the parser it is not. *)
Example direct_implementation_is_matched :
  scan Examples.describedDirectFs Examples.chainScanner
    = {| count := 1; files := ["/repo/Direct.java"] |} ∧
  scan Examples.directFs Examples.chainScanner
    = {| count := 0; files := [] |}.
Proof. split; by vm_compute. Qed.

(** C1 (evaluation at the failing input).  With [interface Base],
    [interface Mid extends Base] and [class Impl implements Mid], a scan
    for the target interface [Base] returns no file.  On the trees of the
    parser nothing is read from the implements clause of [Impl].  Where
    the clauses expose their names as the specification words them,
    [Mid] is found and its [extends] list is [Base], but the traversal
    reads only the [implements] list, which an interface does not have,
    and the scan returns no file either. *)
Theorem chain_through_interface_is_missed :
  findJavaFiles Examples.chainFs (scanDir Examples.chainScanner)
    = ["/repo/Base.java"; "/repo/Impl.java"; "/repo/Mid.java"] ∧
  interfaces Examples.chainScanner = ["Base"] ∧
  getImplementedInterfaces (Java.declaration Examples.Impl) = [] ∧
  scan Examples.chainFs Examples.chainScanner = {| count := 0; files := [] |} ∧
  findJavaFiles Examples.describedChainFs (scanDir Examples.chainScanner)
    = ["/repo/Base.java"; "/repo/Impl.java"; "/repo/Mid.java"] ∧
  getImplementedInterfaces Examples.describedImpl = ["Mid"] ∧
  (findClassDeclaration Examples.describedChainFs "Mid"
     (findJavaFiles Examples.describedChainFs (scanDir Examples.chainScanner))
     = Some (Examples.describedMid, "/repo/Mid.java")) ∧
  getExtendedInterfaces Examples.describedMid = ["Base"] ∧
  getImplementedInterfaces Examples.describedMid = [] ∧
  scan Examples.describedChainFs Examples.chainScanner
    = {| count := 0; files := [] |}.
Proof. repeat split; by vm_compute. Qed.

(** ** The annotation matcher *)

Lemma hasConfiguredAnnotation_true this node :
  hasConfiguredAnnotation this node = true ↔
  ∃ ann, ann ∈ getAnnotations node ∧
         (ann ∈ simpleAnnotationNames this ∨ ann ∈ annotations this).
Proof.
  unfold hasConfiguredAnnotation, simpleAnnotationNames.
  destruct (annotations this) as [|a0 rest] eqn:Hcfg.
  { split; [done|]. intros (ann & _ & [[]%elem_of_nil|[]%elem_of_nil]). }
  rewrite existsb_exists. unfold Js.includes.
  split.
  - intros (ann & Hin%list_elem_of_In & Hmatch). exists ann. split; [done|].
    repeat case_bool_decide; auto. done.
  - intros (ann & Hin & Hmatch). exists ann.
    split; [by apply list_elem_of_In|].
    repeat case_bool_decide; tauto.
Qed.

Lemma hasConfiguredAnnotation_none this node :
  getAnnotations node = [] → hasConfiguredAnnotation this node = false.
Proof.
  intros Hnone. apply not_true_is_false.
  rewrite hasConfiguredAnnotation_true, Hnone.
  by intros (ann & []%elem_of_nil & _).
Qed.

Lemma hasConfiguredInterface_true fs this node javaFiles :
  hasConfiguredInterface fs this node javaFiles = true ↔
  ∃ target, target ∈ interfaces this ∧
            implementsTarget fs node target javaFiles = true.
Proof.
  unfold hasConfiguredInterface.
  destruct (interfaces this) as [|i0 rest] eqn:Hcfg.
  { split; [done|]. by intros (target & []%elem_of_nil & _). }
  rewrite existsb_exists. by setoid_rewrite list_elem_of_In.
Qed.

Lemma hasConfiguredInterface_nothing_implemented fs this node javaFiles :
  getImplementedInterfaces node = [] →
  hasConfiguredInterface fs this node javaFiles = false.
Proof.
  intros Hnone. apply not_true_is_false.
  rewrite hasConfiguredInterface_true. intros (target & _ & Himpl).
  by rewrite implementsTarget_nothing_implemented in Himpl.
Qed.

Lemma elem_of_recordedEntries r entry :
  entry ∈ recordedEntries r ↔ entry = Java.leading r ∧ Java.leading r ≠ "".
Proof.
  unfold recordedEntries. destruct (Java.leading r) as [|a s].
  - cbn. rewrite elem_of_nil. by split; [|intros [_ ?]].
  - cbn. rewrite list_elem_of_singleton. by split; [|intros [? _]].
Qed.

Lemma elem_of_annotationRefs d r :
  r ∈ annotationRefs d ↔ Java.Annotation r ∈ Java.modifiers d.
Proof.
  unfold annotationRefs. rewrite list_elem_of_omap. split.
  - intros ([r'|] & Hin & [= ->]). done.
  - intros Hin. by exists (Java.Annotation r).
Qed.

(** On a class declaration the matcher sees the first identifier of each
    annotation, and nothing else of it. *)
Lemma hasConfiguredAnnotation_class this d :
  Java.kind d = Java.Class →
  hasConfiguredAnnotation this (Java.declaration d) = true ↔
  ∃ r, Java.Annotation r ∈ Java.modifiers d ∧ Java.leading r ≠ "" ∧
       (Java.leading r ∈ simpleAnnotationNames this
        ∨ Java.leading r ∈ annotations this).
Proof.
  intros Hk. rewrite hasConfiguredAnnotation_true, getAnnotations_class by done.
  setoid_rewrite list_elem_of_bind. split.
  - intros (ann & (r & [-> Hne]%elem_of_recordedEntries
                     & Hin%elem_of_annotationRefs) & Hmatch).
    by exists r.
  - intros (r & Hin & Hne & Hmatch). exists (Java.leading r).
    split; [|done]. exists r.
    split; [by apply elem_of_recordedEntries|by apply elem_of_annotationRefs].
Qed.

Lemma lastPart_text r :
  Java.isIdentifier (Java.identifier r) →
  Js.lastPart (Js.split "." (Java.text r)) = Java.identifier r.
Proof.
  intros [_ Hplain]. unfold Java.text.
  destruct (Java.qualifier r) as [|q0 q] eqn:Hq.
  - cbn. by rewrite Hplain.
  - rewrite join_snoc by done.
    change ("." +:+ Java.identifier r) with (String "." (Java.identifier r)).
    by rewrite lastPart_after_separator, Hplain.
Qed.

(** A bare [@Service] on a class matches the configured qualified name
    [com.example.Service] through the part of the name after its last
    dot. *)
Example bare_annotation_matches_qualified_name :
  scan Examples.plainFs Examples.qualifiedScanner
    = {| count := 1; files := ["/repo/Plain.java"] |}.
Proof. by vm_compute. Qed.

(** On an interface declaration nothing is extracted, so no
    configuration matches it. *)
Lemma hasConfiguredAnnotation_interface this d :
  Java.kind d = Java.Interface →
  hasConfiguredAnnotation this (Java.declaration d) = false.
Proof.
  intros Hk. by apply hasConfiguredAnnotation_none, getAnnotations_interface.
Qed.

(** C4 (evaluation at the failing input).  [@Service interface Api {}]
    scanned with the configured annotation [Service]: nothing is
    extracted from the interface declaration, the matcher returns false
    and the file is not in the result. *)
Theorem annotated_interface_is_not_matched :
  annotationRefs Examples.Api = [Examples.bare "Service"] ∧
  annotations Examples.serviceScanner = ["Service"] ∧
  getAnnotations (Java.declaration Examples.Api) = [] ∧
  hasConfiguredAnnotation Examples.serviceScanner
    (Java.declaration Examples.Api) = false ∧
  findJavaFiles Examples.apiFs (scanDir Examples.serviceScanner)
    = ["/repo/Api.java"] ∧
  scan Examples.apiFs Examples.serviceScanner = {| count := 0; files := [] |}.
Proof. repeat split; by vm_compute. Qed.




(** ** The classifier and the result *)

Lemma matched_true fs this javaFiles filePath :
  matched fs this javaFiles filePath = true ↔
  ∃ typeNode,
    declarationOf fs filePath = Some typeNode ∧
    excludeAbstract this && isAbstract typeNode = false ∧
    (hasConfiguredAnnotation this typeNode = true ∨
     hasConfiguredInterface fs this typeNode javaFiles = true).
Proof.
  unfold matched, declarationOf.
  destruct (parseJavaFile fs filePath) as [ast|]; cbn;
    [|split; [done|by intros (? & ? & _)]].
  destruct (getTypeDeclaration ast) as [typeNode|];
    [|split; [done|by intros (? & ? & _)]].
  destruct (excludeAbstract this && isAbstract typeNode) eqn:Hskip.
  - split; [done|]. intros (? & [= <-] & Hno & _). congruence.
  - rewrite orb_true_iff. split; [by eauto|].
    by intros (? & [= <-] & _ & ?).
Qed.

(** The order of the code units is a total preorder. *)
Lemma compareUnits_antisym l1 l2 :
  Js.compareUnits l2 l1 = CompOpp (Js.compareUnits l1 l2).
Proof.
  revert l2. induction l1 as [|a l1 IH]; intros [|b l2]; cbn; try done.
  rewrite (N.compare_antisym a b).
  destruct (a ?= b)%N; cbn; [apply IH|done|done].
Qed.

Lemma compareUnits_trans l1 l2 l3 :
  Js.compareUnits l1 l2 ≠ Gt → Js.compareUnits l2 l3 ≠ Gt →
  Js.compareUnits l1 l3 ≠ Gt.
Proof.
  revert l2 l3.
  induction l1 as [|a l1 IH]; intros [|b l2] [|c l3]; cbn; try done.
  destruct (N.compare_spec a b) as [->|Hab|Hab]; [| |done].
  - destruct (b ?= c)%N; [apply IH|done|done].
  - destruct (N.compare_spec b c) as [->|Hbc|Hbc]; [| |done]; intros _ _.
    + by rewrite (proj2 (N.compare_lt_iff a c) Hab).
    + by rewrite (proj2 (N.compare_lt_iff a c) (N.lt_trans _ _ _ Hab Hbc)).
Qed.

#[local] Instance codeUnitLe_total : Total Js.codeUnitLe.
Proof.
  intros s1 s2. unfold Js.codeUnitLe.
  rewrite (compareUnits_antisym (Js.utf16 s1) (Js.utf16 s2)).
  destruct (Js.compareUnits (Js.utf16 s1) (Js.utf16 s2)); cbn; auto.
Qed.

#[local] Instance codeUnitLe_trans : Transitive Js.codeUnitLe.
Proof. intros s1 s2 s3. apply compareUnits_trans. Qed.

(** A character above U+FFFF is a pair of surrogates, which sort before
    the characters from U+E000 to U+FFFF, although its UTF-8 text sorts
    after theirs. *)
Example surrogates_sort_first :
  Js.utf16 Examples.fullwidthPath
    = [47; 114; 47; 65313; 46; 106; 97; 118; 97]%N ∧
  Js.utf16 Examples.emojiPath
    = [47; 114; 47; 55357; 56832; 46; 106; 97; 118; 97]%N ∧
  sort [Examples.fullwidthPath; Examples.emojiPath]
    = [Examples.emojiPath; Examples.fullwidthPath] ∧
  String.le Examples.fullwidthPath Examples.emojiPath.
Proof. repeat split; by vm_compute. Qed.

Lemma sort_Permutation paths : sort paths ≡ₚ paths.
Proof. apply merge_sort_Permutation. Qed.

Lemma elem_of_scan fs this filePath :
  filePath ∈ files (scan fs this) ↔
  filePath ∈ findJavaFiles fs (scanDir this) ∧
  matched fs this (findJavaFiles fs (scanDir this)) filePath = true.
Proof.
  unfold scan. cbn [files]. rewrite sort_Permutation.
  by rewrite !list_elem_of_In, filter_In.
Qed.



Lemma scan_files_discovered fs this :
  files (scan fs this) ⊆ findJavaFiles fs (scanDir this).
Proof. intros filePath. rewrite elem_of_scan. tauto. Qed.


(** C9.  With no annotation and no interface configured the scan returns
    count 0 and no file, whatever files there are. *)
Theorem no_criteria_no_matches fs this :
  annotations this = [] → interfaces this = [] →
  scan fs this = {| count := 0; files := [] |}.
Proof.
  intros Hann Hifc. unfold scan.
  assert (List.filter (matched fs this (findJavaFiles fs (scanDir this)))
            (findJavaFiles fs (scanDir this)) = []) as ->; [|done].
  generalize (findJavaFiles fs (scanDir this)) at 2. intros candidates.
  induction candidates as [|p rest IH]; [done|]. cbn.
  destruct (matched _ _ _ p) eqn:Hm; [|done].
  apply matched_true in Hm as (node & _ & _ & [Hm|Hm]).
  - unfold hasConfiguredAnnotation in Hm. by rewrite Hann in Hm.
  - unfold hasConfiguredInterface in Hm. by rewrite Hifc in Hm.
Qed.

Lemma no_criteria_no_matches_witness :
  scan Examples.chainFs
    (new (mkConfig None None None (Some "/repo")))
    = {| count := 0; files := [] |}.
Proof.
  apply (no_criteria_no_matches Examples.chainFs
           (new (mkConfig None None None (Some "/repo"))));
    reflexivity.
Defined.

Lemma scan_monotone_in_criteria fs this this' :
  scanDir this = scanDir this' →
  excludeAbstract this = excludeAbstract this' →
  annotations this ⊆ annotations this' →
  interfaces this ⊆ interfaces this' →
  files (scan fs this) ⊆ files (scan fs this').
Proof.
  intros Hdir Habs Hann Hifc filePath.
  rewrite !elem_of_scan, <- Hdir. intros [Hin Hm]. split; [done|].
  apply matched_true in Hm as (node & Hnode & Hskip & Hm).
  apply matched_true. exists node. split; [done|].
  split; [by rewrite <- Habs|].
  destruct Hm as [Hm|Hm]; [left|right].
  - apply hasConfiguredAnnotation_true in Hm as (ann & ? & Hm).
    apply hasConfiguredAnnotation_true. exists ann. split; [done|].
    destruct Hm as [Hm|Hm]; [left|right; by apply Hann].
    unfold simpleAnnotationNames in *.
    apply list_elem_of_fmap in Hm as (a & -> & ?).
    apply (list_elem_of_fmap_2 (λ a, Js.lastPart (Js.split "." a))).
    by apply Hann.
  - apply hasConfiguredInterface_true in Hm as (target & ? & ?).
    apply hasConfiguredInterface_true. exists target. split; [|done].
    by apply Hifc.
Qed.

(** C7.  For a fixed file set and [excludeAbstract], every file in the
    result stays in the result after one more entry is added to the
    annotation list, and after one more entry is added to the interface
    list. *)
Theorem adding_a_criterion_keeps_matches fs this annotation interface filePath :
  filePath ∈ files (scan fs this) →
  filePath ∈ files (scan fs (addAnnotation annotation this)) ∧
  filePath ∈ files (scan fs (addInterface interface this)).
Proof.
  intros Hin. split.
  - apply (scan_monotone_in_criteria fs this (addAnnotation annotation this));
      [done|done| |done|done].
    cbn. intros a ?. apply elem_of_app. by left.
  - apply (scan_monotone_in_criteria fs this (addInterface interface this));
      [done|done|done| |done].
    cbn. intros a ?. apply elem_of_app. by left.
Qed.

Lemma adding_a_criterion_keeps_matches_witness :
  "/repo/Plain.java"
    ∈ files (scan Examples.plainFs
               (addAnnotation "Component" Examples.serviceScanner)) ∧
  "/repo/Plain.java"
    ∈ files (scan Examples.plainFs
               (addInterface "Handler" Examples.serviceScanner)).
Proof.
  apply (adding_a_criterion_keeps_matches Examples.plainFs
           Examples.serviceScanner).
  apply list_elem_of_singleton. reflexivity.
Defined.

(** ** Abstract declarations *)

(** What the scan guarantees on any tree: with [excludeAbstract] true,
    which it is when the configuration leaves it out, no file in the
    result has a declaration on which [isAbstract] is true. *)
Lemma flagged_declarations_are_excluded fs this filePath :
  excludeAbstract this = true →
  filePath ∈ files (scan fs this) →
  ∃ typeNode,
    declarationOf fs filePath = Some typeNode ∧ isAbstract typeNode = false.
Proof.
  intros Hex [_ Hm]%elem_of_scan.
  apply matched_true in Hm as (node & Hnode & Hskip & _).
  rewrite Hex in Hskip. by exists node.
Qed.

Lemma excludeAbstract_default config :
  cfgExcludeAbstract config = None → excludeAbstract (new config) = true.
Proof. intros Hnone. unfold new. cbn. by rewrite Hnone. Qed.

(** C3 (evaluation at the failing input).  [@Service abstract class
    Shape {}] scanned with the configured annotation [Service] and
    [excludeAbstract] left at its default: the declaration carries the
    abstract modifier, [isAbstract] is false on it, and the file is
    listed.  [isAbstract] is false on [abstract interface Marker {}] as
    well. *)
Theorem abstract_class_is_listed :
  Java.Abstract ∈ Java.modifiers Examples.Shape ∧
  excludeAbstract Examples.serviceScanner = true ∧
  isAbstract (Java.declaration Examples.Shape) = false ∧
  findJavaFiles Examples.shapeFs (scanDir Examples.serviceScanner)
    = ["/repo/Shape.java"] ∧
  scan Examples.shapeFs Examples.serviceScanner
    = {| count := 1; files := ["/repo/Shape.java"] |} ∧
  Java.Abstract ∈ Java.modifiers Examples.Marker ∧
  isAbstract (Java.declaration Examples.Marker) = false.
Proof.
  repeat split; try by vm_compute.
  - apply elem_of_cons. right. by apply list_elem_of_singleton.
  - by apply list_elem_of_singleton.
Qed.

(** ** What extraction records for a reference *)

(** C2 (evaluation at the failing input).  For
    [@com.example.Service class Orders implements com.example.Handler]
    extraction records [com] for the annotation and nothing for the
    implemented interface; neither reference is recorded as written.  A
    bare annotation is recorded as itself; a bare implemented interface,
    as in [class Direct implements Base], is not recorded either. *)
Theorem dotted_references_are_not_recorded_as_written :
  Java.text Examples.comExampleService = "com.example.Service" ∧
  annotationRefs Examples.Orders = [Examples.comExampleService] ∧
  getAnnotations (Java.declaration Examples.Orders) = ["com"] ∧
  Java.text Examples.comExampleHandler = "com.example.Handler" ∧
  Java.parents Examples.Orders = [Examples.comExampleHandler] ∧
  getImplementedInterfaces (Java.declaration Examples.Orders) = [] ∧
  getAnnotations (Java.declaration Examples.Plain) = ["Service"] ∧
  Java.parents Examples.Direct = [Examples.bare "Base"] ∧
  getImplementedInterfaces (Java.declaration Examples.Direct) = [] ∧
  Java.parents Examples.Mid = [Examples.bare "Base"] ∧
  getExtendedInterfaces (Java.declaration Examples.Mid) = [].
Proof. repeat split; by vm_compute. Qed.

(** The same for every declaration: of each annotation of a class the
    first identifier is recorded, and of the implements or extends list
    nothing is. *)
Lemma references_recorded d :
  (Java.kind d = Java.Class →
   getAnnotations (Java.declaration d)
     = annotationRefs d ≫= (λ r, typeNameEntries (Java.typeName r))) ∧
  (∀ r, Java.leading r ≠ "" →
        typeNameEntries (Java.typeName r) = [Java.leading r]) ∧
  getImplementedInterfaces (Java.declaration d) = [] ∧
  getExtendedInterfaces (Java.declaration d) = [].
Proof.
  split; [|split; [|split]].
  - intros Hk. rewrite getAnnotations_class by done.
    induction (annotationRefs d) as [|r refs IH]; [done|].
    by rewrite !bind_cons, IH, typeNameEntries_typeName.
  - intros r Hne. rewrite typeNameEntries_typeName.
    unfold recordedEntries. by destruct (Java.leading r).
  - apply getImplementedInterfaces_declaration.
  - apply getExtendedInterfaces_declaration.
Qed.

(** On a tree worded as the specification has it the same extractor
    records a dotted reference as written: the entries are cut short by
    the shape of the tree the parser builds, which the extractors do not
    follow. *)
Example described_reference_is_recorded_as_written :
  getImplementedInterfaces
    (Described.declaration Java.Class "Orders" [Examples.comExampleHandler])
    = ["com.example.Handler"].
Proof. by vm_compute. Qed.

(** ** Which declaration a name resolves to *)

(** C5 (the claim as stated fails).  Directories [a] and [a-b] each hold
    a [T.java] declaring [T].  The walk meets [/r/a/T.java] first and the
    lookup returns it, although [/r/a-b/T.java] is the smaller path. *)
Lemma lookup_not_lexicographically_first :
  findJavaFiles Examples.collisionFs "/r" = ["/r/a/T.java"; "/r/a-b/T.java"] ∧
  (declarationOf Examples.collisionFs "/r/a-b/T.java" ≫= getTypeName)
    = Some "T" ∧
  findClassDeclaration Examples.collisionFs "T"
    (findJavaFiles Examples.collisionFs "/r")
    = Some (Java.declaration Examples.TClass, "/r/a/T.java") ∧
  String.le "/r/a-b/T.java" "/r/a/T.java" ∧
  ¬ String.le "/r/a/T.java" "/r/a-b/T.java".
Proof. repeat split; by vm_compute. Qed.

(** C5 (amended).  A lookup returns the declaration of the first file, in
    the order the files were discovered, whose declaration has the name;
    it returns one whenever some discovered file has such a
    declaration. *)
Theorem lookup_returns_first_discovered fs className javaFiles :
  (∀ node filePath,
     findClassDeclaration fs className javaFiles = Some (node, filePath) →
     ∃ before after,
       javaFiles = before ++ filePath :: after ∧
       declarationOf fs filePath = Some node ∧
       getTypeName node = Some className ∧
       ∀ p n, p ∈ before → declarationOf fs p = Some n →
              getTypeName n ≠ Some className) ∧
  (∀ p n,
     p ∈ javaFiles → declarationOf fs p = Some n →
     getTypeName n = Some className →
     is_Some (findClassDeclaration fs className javaFiles)).
Proof.
  split.
  - intros node filePath. apply findClassDeclaration_Some.
  - intros p n. apply findClassDeclaration_is_Some.
Qed.

Lemma lookup_returns_first_discovered_witness :
  (∃ before after,
     ["/r/a/T.java"; "/r/a-b/T.java"] = before ++ "/r/a/T.java" :: after ∧
     declarationOf Examples.collisionFs "/r/a/T.java"
       = Some (Java.declaration Examples.TClass) ∧
     getTypeName (Java.declaration Examples.TClass) = Some "T" ∧
     ∀ p n, p ∈ before → declarationOf Examples.collisionFs p = Some n →
            getTypeName n ≠ Some "T") ∧
  is_Some (findClassDeclaration Examples.collisionFs "T"
             ["/r/a/T.java"; "/r/a-b/T.java"]).
Proof.
  split.
  - apply (proj1 (lookup_returns_first_discovered Examples.collisionFs "T"
                    ["/r/a/T.java"; "/r/a-b/T.java"])).
    reflexivity.
  - apply (proj2 (lookup_returns_first_discovered Examples.collisionFs "T"
                    ["/r/a/T.java"; "/r/a-b/T.java"])
             "/r/a-b/T.java" (Java.declaration Examples.TInterface)).
    + apply elem_of_cons. right. apply list_elem_of_singleton. reflexivity.
    + reflexivity.
    + reflexivity.
Defined.

(** ** Cycles *)

Section Closed.

Context (fs : FileSystem) (targetInterface : string) (javaFiles : list string).
Context (closed : CstElement → Prop).

(** No member of the set lists the target, and every reference of a
    member that resolves, resolves to a member. *)
Hypothesis closed_no_target :
  ∀ node, closed node → targetInterface ∉ getImplementedInterfaces node.
Hypothesis closed_resolve :
  ∀ node ifaceName ifaceNode filePath,
    closed node → ifaceName ∈ getImplementedInterfaces node →
    findClassDeclaration fs ifaceName javaFiles = Some (ifaceNode, filePath) →
    closed ifaceNode.

Lemma parentsImplement_never_true recurse implemented visited visited' :
  (∀ node seen seen', closed node → recurse node seen ≠ Some (true, seen')) →
  (∀ ifaceName ifaceNode filePath,
     ifaceName ∈ implemented →
     findClassDeclaration fs ifaceName javaFiles = Some (ifaceNode, filePath) →
     closed ifaceNode) →
  parentsImplement recurse
    (λ ifaceName, findClassDeclaration fs ifaceName javaFiles)
    implemented visited ≠ Some (true, visited').
Proof.
  intros Hrec. revert visited.
  induction implemented as [|ifaceName rest IH]; intros visited Hres; [done|].
  cbn [parentsImplement].
  destruct (findClassDeclaration fs ifaceName javaFiles)
    as [[ifaceNode filePath]|] eqn:Hfind.
  - assert (closed ifaceNode) as Hin.
    { eapply Hres; [|done]. apply elem_of_cons. by left. }
    destruct (recurse ifaceNode visited) as [[[] seen]|] eqn:Hcall.
    + by apply Hrec in Hcall.
    + apply IH. intros ? ? ? ?. apply Hres. apply elem_of_cons. by right.
    + done.
  - apply IH. intros ? ? ? ?. apply Hres. apply elem_of_cons. by right.
Qed.

Lemma implementsTargetInterface_never_true fuel node visited visited' :
  closed node →
  implementsTargetInterface fs fuel node targetInterface javaFiles visited
    ≠ Some (true, visited').
Proof.
  revert node visited visited'.
  induction fuel as [|fuel IH]; intros node visited visited' Hin; [done|].
  cbn [implementsTargetInterface]. case_bool_decide; [done|].
  unfold Js.includes. rewrite bool_decide_eq_false_2 by eauto.
  apply parentsImplement_never_true.
  - intros. by apply IH.
  - intros. by eapply closed_resolve.
Qed.

End Closed.

(** C6.  Every call of [implementsTargetInterface] returns, on any file
    set and from any visited set: with [depthBound javaFiles] levels of
    recursion or more it yields one fixed result.  When [X] references
    [Y], [Y] references [X], and their other references resolve to no
    file, the call on either returns false for every target that neither
    of them lists. *)
Theorem traversal_terminates_and_cycle_is_false :
  (∀ fs node targetInterface javaFiles visited,
     ∃ answer visited',
       ∀ fuel, depthBound javaFiles ≤ fuel →
         implementsTargetInterface fs fuel node targetInterface javaFiles
           visited = Some (answer, visited')) ∧
  (∀ fs javaFiles nameX nameY nodeX nodeY fileX fileY targetInterface,
     findClassDeclaration fs nameX javaFiles = Some (nodeX, fileX) →
     findClassDeclaration fs nameY javaFiles = Some (nodeY, fileY) →
     nameY ∈ implementedOrExtendedRefs nodeX →
     nameX ∈ implementedOrExtendedRefs nodeY →
     (∀ other,
        other ∈ implementedOrExtendedRefs nodeX
                  ++ implementedOrExtendedRefs nodeY →
        other ≠ nameX → other ≠ nameY →
        findClassDeclaration fs other javaFiles = None) →
     targetInterface ∉ implementedOrExtendedRefs nodeX →
     targetInterface ∉ implementedOrExtendedRefs nodeY →
     ∀ node, node = nodeX ∨ node = nodeY →
       implementsTarget fs node targetInterface javaFiles = false ∧
       ∃ visited',
         ∀ fuel, depthBound javaFiles ≤ fuel →
           implementsTargetInterface fs fuel node targetInterface javaFiles ∅
             = Some (false, visited')).
Proof.
  split.
  - intros fs node targetInterface javaFiles visited.
    destruct (implementsTargetInterface_returns fs targetInterface javaFiles
                node visited) as (answer & visited' & _ & Hrun).
    eauto.
  - intros fs javaFiles nameX nameY nodeX nodeY fileX fileY targetInterface
      HX HY _ _ Hother HtX HtY node Hnode.
    destruct (implementsTargetInterface_returns fs targetInterface javaFiles
                node ∅) as (answer & visited' & _ & Hrun).
    assert (answer = false) as ->.
    { destruct answer; [|done]. exfalso.
      eapply (implementsTargetInterface_never_true fs targetInterface
                javaFiles (λ n, n = nodeX ∨ n = nodeY));
        [| |exact Hnode|exact (Hrun _ (le_n _))].
      - intros n [-> | ->] Hin; [apply HtX|apply HtY];
          unfold implementedOrExtendedRefs; apply elem_of_app; by left.
      - intros n ifaceName ifaceNode filePath Hn Hin Hfind.
        destruct (decide (ifaceName = nameX)) as [->|HnX]; [left; congruence|].
        destruct (decide (ifaceName = nameY)) as [->|HnY]; [right; congruence|].
        rewrite Hother in Hfind; [done| |done|done].
        unfold implementedOrExtendedRefs. rewrite !elem_of_app.
        destruct Hn as [-> | ->]; auto. }
    split; [|by eauto].
    unfold implementsTarget. by rewrite Hrun.
Qed.

Lemma traversal_terminates_and_cycle_is_false_witness :
  implementsTarget Examples.cycleFs Examples.X "Z"
    ["/repo/X.java"; "/repo/Y.java"] = false ∧
  ∃ visited',
    ∀ fuel, depthBound ["/repo/X.java"; "/repo/Y.java"] ≤ fuel →
      implementsTargetInterface Examples.cycleFs fuel
        Examples.X "Z" ["/repo/X.java"; "/repo/Y.java"] ∅
        = Some (false, visited').
Proof.
  apply (proj2 traversal_terminates_and_cycle_is_false Examples.cycleFs
           ["/repo/X.java"; "/repo/Y.java"] "X" "Y"
           Examples.X Examples.Y
           "/repo/X.java" "/repo/Y.java" "Z").
  - reflexivity.
  - reflexivity.
  - apply list_elem_of_singleton. reflexivity.
  - apply list_elem_of_singleton. reflexivity.
  - intros other Hin HX HY. exfalso.
    assert (implementedOrExtendedRefs Examples.X
              ++ implementedOrExtendedRefs Examples.Y
            = ["Y"; "X"]) as Hrefs by reflexivity.
    rewrite Hrefs in Hin.
    apply elem_of_cons in Hin as [->|Hin]; [done|].
    apply list_elem_of_singleton in Hin as ->. done.
  - intros Hin. apply list_elem_of_singleton in Hin. discriminate Hin.
  - intros Hin. apply list_elem_of_singleton in Hin. discriminate Hin.
  - left. reflexivity.
Defined.

(** The same cycle between two classes, where the traversal does follow
    the references: it visits [P], then [Q], meets [P] again and stops. *)
Example class_cycle_is_cut :
  implementsTargetInterface Examples.classCycleFs 4
    Examples.P "Z" ["/repo/P.java"; "/repo/Q.java"] ∅
    = Some (false, {["P"; "Q"]}) ∧
  implementsTargetInterface Examples.classCycleFs 2
    Examples.P "Z" ["/repo/P.java"; "/repo/Q.java"] ∅
    = None.
Proof. split; by vm_compute. Qed.

(** ** Paths of discovered files *)

Section Normalize.

Implicit Types (segs plains : list string).

Lemma plainName_free entry : plainName entry → Js.split "/" entry = [entry].
Proof. by intros (_ & _ & _ & ?). Qed.

Lemma pushSegment_plain allow res entry :
  plainName entry → Path.pushSegment allow res entry = res ++ [entry].
Proof.
  intros (? & ? & ? & _). unfold Path.pushSegment.
  rewrite bool_decide_eq_false_2 by (by intros [?|?]).
  by rewrite bool_decide_eq_false_2.
Qed.

Lemma foldl_plain allow res plains :
  Forall plainName plains →
  foldl (Path.pushSegment allow) res plains = res ++ plains.
Proof.
  intros Hplain. revert res.
  induction Hplain as [|entry plains Hentry _ IH]; intros res.
  - by rewrite app_nil_r.
  - cbn. rewrite pushSegment_plain, IH by done. by rewrite <- app_assoc.
Qed.

Lemma pushSegment_dots j :
  Path.pushSegment true (replicate j "..") ".." = replicate (S j) "..".
Proof.
  unfold Path.pushSegment.
  rewrite (bool_decide_eq_false_2 (".." = "" ∨ ".." = "."))
    by (by intros [?|?]).
  rewrite (bool_decide_eq_true_2 (".." = "..")) by done.
  destruct j as [|j]; [done|].
  rewrite (replicate_S_end j) at 1. rewrite last_snoc.
  rewrite (bool_decide_eq_true_2 (".." = "..")) by done.
  by rewrite <- (replicate_S_end (S j)).
Qed.

Lemma foldl_dots j k :
  foldl (Path.pushSegment true) (replicate j "..") (replicate k "..")
    = replicate (j + k) "..".
Proof.
  revert j. induction k as [|k IH]; intros j.
  - by rewrite Nat.add_0_r.
  - cbn [replicate foldl]. rewrite pushSegment_dots, IH. f_equal. lia.
Qed.

Lemma normalizeSegments_snoc allow segs seg :
  Path.normalizeSegments allow (segs ++ [seg])
    = Path.pushSegment allow (Path.normalizeSegments allow segs) seg.
Proof. unfold Path.normalizeSegments. by rewrite foldl_snoc. Qed.

Lemma normalForm_push allow res seg :
  normalForm (negb allow) res → Js.split "/" seg = [seg] →
  normalForm (negb allow) (Path.pushSegment allow res seg).
Proof.
  intros (k & plains & -> & Hk & Hplain) Hfree. unfold Path.pushSegment.
  case_bool_decide as Hskip; [by exists k, plains|].
  case_bool_decide as Hup.
  - destruct plains as [|prev plains _] using rev_ind.
    + rewrite app_nil_r. destruct k as [|k].
      * cbn. destruct allow; [by exists 1, []|by exists 0, []].
      * rewrite (replicate_S_end k) at 1. rewrite last_snoc.
        rewrite (bool_decide_eq_true_2 (".." = "..")) by done.
        destruct allow; [|by discriminate Hk].
        exists (S (S k)), []. rewrite app_nil_r.
        split; [by rewrite <- (replicate_S_end (S k))|]. done.
    + apply Forall_app in Hplain as [Hplains [Hprev _]%Forall_cons].
      rewrite app_assoc, last_snoc, removelast_last.
      rewrite bool_decide_eq_false_2 by (by destruct Hprev as (_ & _ & ? & _)).
      by exists k, plains.
  - exists k, (plains ++ [seg]). rewrite app_assoc. split; [done|].
    split; [done|]. apply Forall_app. split; [done|].
    apply Forall_singleton. unfold plainName. tauto.
Qed.

Lemma normalForm_normalizeSegments allow segs :
  Forall (λ s, Js.split "/" s = [s]) segs →
  normalForm (negb allow) (Path.normalizeSegments allow segs).
Proof.
  induction segs as [|seg segs IH] using rev_ind; intros Hfree.
  - by exists 0, [].
  - apply Forall_app in Hfree as [Hsegs [Hseg _]%Forall_cons].
    rewrite normalizeSegments_snoc. by apply normalForm_push; [apply IH|].
Qed.

Lemma normalForm_segmentsOf p : normalForm (Path.isAbsolute p) (segmentsOf p).
Proof.
  unfold segmentsOf.
  rewrite <- (negb_involutive (Path.isAbsolute p)) at 1.
  apply normalForm_normalizeSegments, Forall_forall.
  intros piece. apply split_pieces_free.
Qed.

Lemma normalForm_snoc absolute segs entry :
  normalForm absolute segs → plainName entry →
  normalForm absolute (segs ++ [entry]).
Proof.
  intros (k & plains & -> & Hk & Hplain) Hentry.
  exists k, (plains ++ [entry]). rewrite app_assoc. split; [done|].
  split; [done|]. apply Forall_app. by split; [|apply Forall_singleton].
Qed.

Lemma normalForm_free absolute segs :
  normalForm absolute segs → Forall (λ s, Js.split "/" s = [s]) segs.
Proof.
  intros (k & plains & -> & _ & Hplain). apply Forall_app. split.
  - apply Forall_forall. by intros s [-> _]%elem_of_replicate.
  - eapply Forall_impl; [done|]. apply plainName_free.
Qed.

Lemma normalizeSegments_normalForm absolute segs :
  normalForm absolute segs →
  Path.normalizeSegments (negb absolute) segs = segs.
Proof.
  intros (k & plains & -> & Hk & Hplain). unfold Path.normalizeSegments.
  rewrite foldl_app. destruct k as [|k].
  - cbn. by rewrite foldl_plain.
  - destruct absolute; [by discriminate Hk|]. cbn [negb].
    change [] with (replicate 0 "..") at 1.
    rewrite foldl_dots. by rewrite foldl_plain.
Qed.

End Normalize.

Section Join.

Lemma append_empty_r (s : string) : s +:+ "" = s.
Proof.
  induction s as [|a s IH]; [done|].
  change (String a (s +:+ "") = String a s). by rewrite IH.
Qed.

Lemma truthy_append_r s1 s2 :
  Js.truthy s2 = true → Js.truthy (s1 +:+ s2) = true.
Proof. by destruct s1. Qed.

Lemma truthy_join_snoc sep segs entry :
  entry ≠ "" → Js.truthy (Js.join sep (segs ++ [entry])) = true.
Proof.
  intros Hentry. destruct segs as [|s segs].
  - by destruct entry.
  - rewrite (join_snoc sep (s :: segs)) by done.
    apply truthy_append_r, truthy_append_r. by destruct entry.
Qed.

Lemma isAbsolute_String a s :
  Path.isAbsolute (String a s) = if ascii_dec "/" a then true else false.
Proof.
  unfold Path.isAbsolute, Js.startsWith. cbn [String.prefix].
  destruct (ascii_dec "/" a); [by destruct s|done].
Qed.

Lemma isAbsolute_cons a s1 s2 :
  Path.isAbsolute (String a s1) = Path.isAbsolute (String a s2).
Proof. by rewrite !isAbsolute_String. Qed.

Lemma isAbsolute_free s : Js.split "/" s = [s] → Path.isAbsolute s = false.
Proof.
  destruct s as [|a s]; [done|]. intros [Hne _]%split_free_cons.
  rewrite isAbsolute_String. by destruct (ascii_dec "/" a).
Qed.

Lemma length_plainName entry : plainName entry → 1 ≤ String.length entry.
Proof. intros (Hne & _). destruct entry; [done|]. cbn. lia. Qed.

(** [path.join] with an entry name appends the name to the normalized
    directory. *)
Lemma join_located cur entry :
  plainName entry → Path.join cur entry = located cur [entry].
Proof.
  intros Hentry. pose proof Hentry as (Hne & _ & _ & Hfree).
  assert (Js.truthy entry = true) as Htruthy by (by destruct entry).
  assert (Js.endsWith entry "/" = false) as Hend by (by apply endsWith_free).
  unfold Path.join, located, render. rewrite Htruthy.
  destruct cur as [|a cur].
  - cbn [Js.truthy]. unfold Path.normalize. rewrite Htruthy, Hend.
    rewrite (isAbsolute_free entry) by done. cbn [negb].
    rewrite Hfree. unfold Path.normalizeSegments. cbn [foldl].
    rewrite pushSegment_plain by done. cbn [app Js.join String.concat].
    rewrite Htruthy. by rewrite append_empty_r.
  - cbn [Js.truthy]. unfold Path.normalize.
    set (p := String a cur +:+ "/" +:+ entry).
    assert (Js.truthy p = true) as -> by done.
    assert (Path.isAbsolute p = Path.isAbsolute (String a cur)) as ->
      by apply isAbsolute_cons.
    assert (Js.endsWith p "/" = false) as ->.
    { unfold p. rewrite <- append_assoc.
      apply endsWith_app; [done|done|done|by apply length_plainName]. }
    assert (Js.split "/" p = Js.split "/" (String a cur) ++ [entry]) as ->.
    { unfold p. change ("/" +:+ entry) with (String "/" entry).
      by rewrite split_app_separator, Hfree. }
    rewrite normalizeSegments_snoc, pushSegment_plain by done.
    fold (segmentsOf (String a cur)).
    rewrite truthy_join_snoc by done. by rewrite append_empty_r.
Qed.

(** A path written from pieces in normal form normalizes to them. *)
Lemma segmentsOf_render absolute segs :
  normalForm absolute segs →
  Path.isAbsolute (render absolute segs) = absolute ∧
  segmentsOf (render absolute segs) = segs.
Proof.
  intros Hnf. pose proof (normalForm_free _ _ Hnf) as Hfree.
  pose proof (normalizeSegments_normalForm _ _ Hnf) as Hidem.
  unfold render, segmentsOf. destruct absolute.
  - change ("/" +:+ Js.join "/" segs) with (String "/" (Js.join "/" segs)).
    assert (Path.isAbsolute (String "/" (Js.join "/" segs)) = true) as ->
      by (by rewrite isAbsolute_String).
    split; [done|].
    rewrite split_cons. cbn [Ascii.eqb Bool.eqb].
    destruct segs as [|s segs]; [done|].
    rewrite (split_join "/") by done.
    unfold Path.normalizeSegments in *. cbn [foldl]. exact Hidem.
  - change ("" +:+ Js.join "/" segs) with (Js.join "/" segs).
    destruct segs as [|s segs]; [done|].
    assert (Path.isAbsolute (Js.join "/" (s :: segs)) = false) as Hrel.
    { apply Forall_cons in Hfree as [Hs _].
      assert (s ≠ "") as Hne.
      { destruct Hnf as (k & plains & Heq & _ & Hplain).
        destruct k as [|k]; cbn in Heq.
        - subst plains. by apply Forall_cons in Hplain as [(? & _) _].
        - by injection Heq as -> _. }
      destruct s as [|a s]; [done|]. apply split_free_cons in Hs as [Ha _].
      destruct segs as [|s' segs].
      - change (Js.join "/" [String a s]) with (String a s).
        rewrite isAbsolute_String. by destruct (ascii_dec "/" a).
      - rewrite join_cons.
        change (String a s +:+ "/" +:+ Js.join "/" (s' :: segs))
          with (String a (s +:+ "/" +:+ Js.join "/" (s' :: segs))).
        rewrite isAbsolute_String. by destruct (ascii_dec "/" a). }
    split; [done|]. rewrite Hrel. cbn [negb].
    by rewrite (split_join "/").
Qed.

Lemma normalForm_app absolute segs rel :
  normalForm absolute segs → Forall plainName rel →
  normalForm absolute (segs ++ rel).
Proof.
  intros (k & plains & -> & Hk & Hplain) Hrel.
  exists k, (plains ++ rel). rewrite app_assoc. split; [done|].
  split; [done|]. by apply Forall_app.
Qed.

Lemma located_located cur entry rel :
  plainName entry → located (located cur [entry]) rel = located cur (entry :: rel).
Proof.
  intros Hentry. unfold located at 1.
  destruct (segmentsOf_render (Path.isAbsolute cur) (segmentsOf cur ++ [entry]))
    as [Habs Hsegs].
  { apply normalForm_snoc; [apply normalForm_segmentsOf|done]. }
  fold (located cur [entry]) in Habs, Hsegs. rewrite Habs, Hsegs.
  unfold located. by rewrite <- app_assoc.
Qed.

Lemma isAbsolute_located cur rel :
  Forall plainName rel → Path.isAbsolute (located cur rel) = Path.isAbsolute cur.
Proof.
  intros Hrel. unfold located.
  apply segmentsOf_render, normalForm_app; [apply normalForm_segmentsOf|done].
Qed.

Lemma located_inj cur rel1 rel2 :
  rel1 ≠ [] → rel2 ≠ [] → Forall plainName rel1 → Forall plainName rel2 →
  located cur rel1 = located cur rel2 → rel1 = rel2.
Proof.
  intros Hne1 Hne2 Hrel1 Hrel2 Heq. unfold located, render in Heq.
  apply (inj (String.app _)) in Heq.
  apply (f_equal (Js.split "/")) in Heq.
  rewrite !(split_join "/") in Heq.
  - by apply app_inv_head in Heq.
  - by destruct (segmentsOf cur).
  - eapply normalForm_free, normalForm_app; [apply normalForm_segmentsOf|done].
  - by destruct (segmentsOf cur).
  - eapply normalForm_free, normalForm_app; [apply normalForm_segmentsOf|done].
Qed.

End Join.

Section Walk.

Lemma FsEntry_ind (holds : FsEntry → Prop) :
  holds FsFile →
  (∀ entries, Forall (λ e, holds e.2) entries → holds (FsDir entries)) →
  ∀ found, holds found.
Proof.
  intros Hfile Hdir.
  refine (fix go (found : FsEntry) : holds found :=
            match found with
            | FsFile => Hfile
            | FsDir entries =>
                Hdir entries
                  ((fix all (rest : list (string * FsEntry))
                      : Forall (λ e, holds e.2) rest :=
                      match rest with
                      | [] => Forall_nil_2 _
                      | e :: rest' => Forall_cons_2 _ _ _ (go e.2) (all rest')
                      end) entries)
            end).
Qed.

(** What one directory entry contributes, to the walk and to the
    relative listing. *)
Lemma walkDir_cons cur entry sub rest :
  walkDir cur (FsDir ((entry, sub) :: rest)) =
    match sub with
    | FsDir _ =>
        if skippedDirectory entry then []
        else walkDir (Path.join cur entry) sub
    | FsFile => if Js.endsWith entry ".java" then [Path.join cur entry] else []
    end ++ walkDir cur (FsDir rest).
Proof.
  cbn [walkDir]. destruct sub.
  - by destruct (Js.endsWith entry ".java").
  - by destruct (skippedDirectory entry).
Qed.

Lemma relativeFiles_cons entry sub rest :
  relativeFiles (FsDir ((entry, sub) :: rest)) =
    match sub with
    | FsDir _ =>
        if skippedDirectory entry then []
        else (entry ::.) <$> relativeFiles sub
    | FsFile => if Js.endsWith entry ".java" then [[entry]] else []
    end ++ relativeFiles (FsDir rest).
Proof.
  cbn [relativeFiles]. destruct sub.
  - by destruct (Js.endsWith entry ".java").
  - by destruct (skippedDirectory entry).
Qed.

Lemma wellFormed_cons entry sub rest :
  wellFormed (FsDir ((entry, sub) :: rest)) ↔
  (entry ∉ fst <$> rest) ∧ plainName entry ∧ wellFormed sub ∧
  wellFormed (FsDir rest).
Proof. cbn. rewrite NoDup_cons. tauto. Qed.

Lemma walkDir_located cur found :
  wellFormed found → found ≠ FsFile →
  walkDir cur found = located cur <$> relativeFiles found.
Proof.
  revert cur. induction found as [|entries IH] using FsEntry_ind;
    intros cur Hwf Hdir; [done|]. clear Hdir.
  induction entries as [|[entry sub] rest IHrest]; [done|].
  apply wellFormed_cons in Hwf as (_ & Hentry & Hsub & Hrest).
  apply Forall_cons in IH as [IHsub IH].
  rewrite walkDir_cons, relativeFiles_cons, fmap_app, IHrest by done.
  f_equal. destruct sub as [|entries'].
  - destruct (Js.endsWith entry ".java"); [|done].
    cbn. by rewrite join_located.
  - destruct (skippedDirectory entry); [done|].
    cbn [snd] in IHsub. rewrite IHsub by done.
    rewrite join_located by done. rewrite <- list_fmap_compose.
    apply list_fmap_ext. intros _ rel _. cbn. by apply located_located.
Qed.

Lemma relativeFiles_plain found rel :
  wellFormed found → rel ∈ relativeFiles found →
  rel ≠ [] ∧ Forall plainName rel.
Proof.
  revert rel. induction found as [|entries IH] using FsEntry_ind;
    intros rel Hwf Hin; [by apply elem_of_nil in Hin|].
  induction entries as [|[entry sub] rest IHrest];
    [by apply elem_of_nil in Hin|].
  apply wellFormed_cons in Hwf as (_ & Hentry & Hsub & Hrest).
  apply Forall_cons in IH as [IHsub IH].
  rewrite relativeFiles_cons in Hin.
  apply elem_of_app in Hin as [Hin|Hin]; [|by apply IHrest].
  destruct sub as [|entries'].
  - destruct (Js.endsWith entry ".java"); [|by apply elem_of_nil in Hin].
    apply list_elem_of_singleton in Hin as ->.
    split; [done|]. by apply Forall_singleton.
  - destruct (skippedDirectory entry); [by apply elem_of_nil in Hin|].
    apply list_elem_of_fmap in Hin as (tail & -> & Hin).
    split; [done|]. apply Forall_cons. split; [done|].
    by apply (IHsub tail Hsub).
Qed.

Lemma relativeFiles_head entries rel :
  rel ∈ relativeFiles (FsDir entries) →
  ∃ entry tail, rel = entry :: tail ∧ entry ∈ (fst <$> entries).
Proof.
  induction entries as [|[entry sub] rest IH];
    [by intros ?%elem_of_nil|].
  rewrite relativeFiles_cons.
  intros [Hin|Hin]%elem_of_app.
  - assert (∃ tail, rel = entry :: tail) as [tail ->].
    { destruct sub as [|entries'].
      - destruct (Js.endsWith entry ".java"); [|by apply elem_of_nil in Hin].
        apply list_elem_of_singleton in Hin as ->. by exists [].
      - destruct (skippedDirectory entry); [by apply elem_of_nil in Hin|].
        apply list_elem_of_fmap in Hin as (tail & -> & _). by exists tail. }
    exists entry, tail. split; [done|]. cbn. apply elem_of_cons. by left.
  - destruct (IH Hin) as (entry' & tail & -> & ?).
    exists entry', tail. split; [done|]. cbn. apply elem_of_cons. by right.
Qed.

Lemma relativeFiles_NoDup found :
  wellFormed found → NoDup (relativeFiles found).
Proof.
  induction found as [|entries IH] using FsEntry_ind; intros Hwf;
    [by apply NoDup_nil|].
  induction entries as [|[entry sub] rest IHrest]; [by apply NoDup_nil|].
  apply wellFormed_cons in Hwf as (Hfresh & Hentry & Hsub & Hrest).
  apply Forall_cons in IH as [IHsub IH].
  rewrite relativeFiles_cons. apply NoDup_app. split; [|split].
  - destruct sub as [|entries'].
    + destruct (Js.endsWith entry ".java");
        [apply NoDup_singleton|apply NoDup_nil; done].
    + destruct (skippedDirectory entry); [by apply NoDup_nil|].
      apply (NoDup_fmap_2 _). by apply IHsub.
  - intros rel Hhere Hrest'.
    apply relativeFiles_head in Hrest' as (entry' & tail & -> & Hin').
    assert (entry' = entry) as ->; [|done].
    destruct sub as [|entries'].
    + destruct (Js.endsWith entry ".java"); [|by apply elem_of_nil in Hhere].
      by apply list_elem_of_singleton in Hhere as [= -> _].
    + destruct (skippedDirectory entry); [by apply elem_of_nil in Hhere|].
      by apply list_elem_of_fmap in Hhere as (? & [= -> _] & _).
  - by apply IHrest.
Qed.

(** On a well-formed directory tree the walk lists no path twice, and
    every path it lists is absolute exactly when the directory it
    started from is. *)
Lemma walkDir_NoDup cur found : wellFormed found → NoDup (walkDir cur found).
Proof.
  intros Hwf. destruct found as [|entries].
  { cbn. destruct (Js.endsWith cur ".java");
      [apply NoDup_singleton|by apply NoDup_nil]. }
  rewrite walkDir_located by done.
  apply NoDup_fmap_2_strong; [|by apply relativeFiles_NoDup].
  intros rel1 rel2 Hin1%(relativeFiles_plain _ _ Hwf)
    Hin2%(relativeFiles_plain _ _ Hwf) Heq.
  destruct Hin1, Hin2. by eapply located_inj.
Qed.

Lemma walkDir_isAbsolute cur found filePath :
  wellFormed found → filePath ∈ walkDir cur found →
  Path.isAbsolute filePath = Path.isAbsolute cur.
Proof.
  intros Hwf. destruct found as [|entries].
  { cbn. destruct (Js.endsWith cur ".java");
      [by intros ->%list_elem_of_singleton|by intros ?%elem_of_nil]. }
  rewrite walkDir_located by done.
  intros (rel & -> & Hin)%list_elem_of_fmap.
  apply isAbsolute_located. by eapply relativeFiles_plain.
Qed.

End Walk.


(** C8 (evaluation at the failing input).  [@Service class Plain {}] in
    the default scan directory [./src/main/java], scanned for the
    annotation [Service]: the file matches and is listed under a relative
    path.  By [scan_contract] the listed paths are relative whenever the
    scan directory is. *)
Theorem default_scan_dir_lists_relative_paths :
  scanDir Examples.defaultDirScanner = "./src/main/java" ∧
  annotations Examples.defaultDirScanner = ["Service"] ∧
  findJavaFiles Examples.defaultDirFs (scanDir Examples.defaultDirScanner)
    = ["src/main/java/Plain.java"] ∧
  declarationOf Examples.defaultDirFs "src/main/java/Plain.java"
    = Some (Java.declaration Examples.Plain) ∧
  getAnnotations (Java.declaration Examples.Plain) = ["Service"] ∧
  scan Examples.defaultDirFs Examples.defaultDirScanner
    = {| count := 1; files := ["src/main/java/Plain.java"] |} ∧
  Path.isAbsolute "src/main/java/Plain.java" = false.
Proof. repeat split; by vm_compute. Qed.

(** * Further properties of the scanner *)

(** ** What the traversal decides *)

Section Reachability.

Context (fs : FileSystem) (targetInterface : string) (javaFiles : list string).

Local Abbreviation run fuel :=
  (λ node seen,
     implementsTargetInterface fs fuel node targetInterface javaFiles seen).
Local Abbreviation resolve :=
  (λ ifaceName, findClassDeclaration fs ifaceName javaFiles).
Local Abbreviation through := (implementsThrough fs javaFiles targetInterface).
Local Abbreviation explored := (explored fs javaFiles targetInterface).
Local Abbreviation leavesExplored :=
  (leavesExplored fs javaFiles targetInterface).

Lemma parentsImplement_true recurse implemented visited visited' :
  (∀ node seen seen', recurse node seen = Some (true, seen') → through node) →
  parentsImplement recurse resolve implemented visited = Some (true, visited') →
  ∃ ifaceName ifaceNode filePath,
    ifaceName ∈ implemented ∧
    resolve ifaceName = Some (ifaceNode, filePath) ∧ through ifaceNode.
Proof.
  intros Hrec. revert visited.
  induction implemented as [|ifaceName rest IH]; intros visited; [done|].
  cbn [parentsImplement].
  destruct (findClassDeclaration fs ifaceName javaFiles)
    as [[ifaceNode filePath]|] eqn:Hfind.
  - destruct (recurse ifaceNode visited) as [[[] seen]|] eqn:Hcall; [| |done].
    + intros _. exists ifaceName, ifaceNode, filePath.
      split; [apply elem_of_cons; by left|]. split; [done|]. by eapply Hrec.
    + intros (r & n & p & ? & ? & ?)%IH. exists r, n, p.
      split; [apply elem_of_cons; by right|done].
  - intros (r & n & p & ? & ? & ?)%IH. exists r, n, p.
    split; [apply elem_of_cons; by right|done].
Qed.

Lemma implementsTargetInterface_true fuel node visited visited' :
  run fuel node visited = Some (true, visited') → through node.
Proof.
  revert node visited visited'.
  induction fuel as [|fuel IH]; intros node visited visited'; [done|].
  cbn [implementsTargetInterface]. case_bool_decide; [done|].
  unfold Js.includes. case_bool_decide as Hdirect.
  - intros _. by apply through_direct.
  - intros (r & n & p & ? & ? & ?)%parentsImplement_true; [|exact IH].
    by eapply through_parent.
Qed.

Lemma explored_mono (visited visited' : gset string) name :
  visited ⊆ visited' → explored visited name → explored visited' name.
Proof.
  intros Hsub Hex node filePath Hfind.
  destruct (Hex node filePath Hfind) as [Hno Hedges].
  split; [done|]. intros r Hr Hres. by apply Hsub, Hedges.
Qed.

Lemma parentsImplement_false recurse implemented visited visited' :
  (∀ name node filePath seen seen',
     resolve name = Some (node, filePath) →
     recurse node seen = Some (false, seen') →
     name ∈ seen' ∧ leavesExplored seen seen') →
  parentsImplement recurse resolve implemented visited
    = Some (false, visited') →
  leavesExplored visited visited' ∧
  ∀ ifaceName, ifaceName ∈ implemented → is_Some (resolve ifaceName) →
               ifaceName ∈ visited'.
Proof.
  intros Hrec. revert visited.
  induction implemented as [|ifaceName rest IH]; intros visited.
  { intros [= <-]. split; [split; [done|by intros]|].
    by intros ? ?%elem_of_nil. }
  cbn [parentsImplement].
  destruct (findClassDeclaration fs ifaceName javaFiles)
    as [[ifaceNode filePath]|] eqn:Hfind.
  - destruct (recurse ifaceNode visited) as [[[] seen]|] eqn:Hcall;
      [done| |done].
    intros [[Hsub2 Hnew2] Hrest]%IH.
    destruct (Hrec _ _ _ _ _ Hfind Hcall) as [Hin [Hsub1 Hnew1]].
    split; [split|].
    + set_solver.
    + intros name Hname Hfresh.
      destruct (decide (name ∈ seen)) as [Hseen|Hlater].
      * eapply explored_mono; [exact Hsub2|]. by apply Hnew1.
      * by apply Hnew2.
    + intros r [->|Hr]%elem_of_cons Hres; [by apply Hsub2|by apply Hrest].
  - intros [Hleaves Hrest]%IH. split; [done|].
    intros r [->|Hr]%elem_of_cons Hres; [|by apply Hrest].
    rewrite Hfind in Hres. by destruct Hres.
Qed.

Lemma implementsTargetInterface_false fuel name node filePath visited visited' :
  resolve name = Some (node, filePath) →
  run fuel node visited = Some (false, visited') →
  name ∈ visited' ∧ leavesExplored visited visited'.
Proof.
  revert name node filePath visited visited'.
  induction fuel as [|fuel IH];
    intros name node filePath visited visited' Hfind; [done|].
  pose proof (findClassDeclaration_declared _ _ _ _ _ Hfind) as [Hname _].
  cbn [implementsTargetInterface]. rewrite Hname. cbn [default].
  case_bool_decide as Hseen.
  { intros [= <-]. split; [done|]. split; [done|by intros]. }
  unfold Js.includes. case_bool_decide as Hdirect; [done|].
  intros [[Hsub Hnew] Hedges]%parentsImplement_false; [|exact IH].
  split; [set_solver|]. split; [set_solver|].
  intros name' Hin Hfresh.
  destruct (decide (name' = name)) as [->|Hne]; [|apply Hnew; set_solver].
  intros node' filePath' Hfind'. rewrite Hfind in Hfind'.
  injection Hfind' as <- <-. split; [done|]. exact Hedges.
Qed.

Lemma explored_not_through (visited : gset string) :
  (∀ name, name ∈ visited → explored visited name) →
  ∀ node, through node →
  ∀ name filePath, resolve name = Some (node, filePath) → name ∉ visited.
Proof.
  intros Hclosed node Hthrough.
  induction Hthrough as [node Hdirect|node r n p Hr Hres _ IH];
    intros name filePath Hfind Hin.
  - by destruct (Hclosed name Hin node filePath Hfind) as [Hno _].
  - destruct (Hclosed name Hin node filePath Hfind) as [_ Hedges].
    eapply IH; [exact Hres|]. apply Hedges; [done|]. by rewrite Hres.
Qed.

End Reachability.

(** X1.  When the traversal answers true, from any node and any visited
    set, there is a chain of implements references, each resolved by
    name among the discovered files, from the node to a declaration that
    lists the target in its implements clause. *)
Theorem traversal_true_has_chain fs fuel node targetInterface javaFiles
    visited visited' :
  implementsTargetInterface fs fuel node targetInterface javaFiles visited
    = Some (true, visited') →
  implementsThrough fs javaFiles targetInterface node.
Proof. apply implementsTargetInterface_true. Qed.

Lemma traversal_true_has_chain_witness :
  implementsThrough Examples.describedDirectFs
    ["/repo/Base.java"; "/repo/Direct.java"] "Base" Examples.describedDirect.
Proof.
  apply (traversal_true_has_chain Examples.describedDirectFs 4
           Examples.describedDirect "Base"
           ["/repo/Base.java"; "/repo/Direct.java"] ∅ {["Direct"]}).
  reflexivity.
Defined.

(** X2.  For a declaration that is the one its own name resolves to, the
    resolver answers true exactly when such a chain exists: the visited
    set cuts cycles without losing a chain. *)
Theorem resolver_decides_chains fs className node filePath targetInterface
    javaFiles :
  findClassDeclaration fs className javaFiles = Some (node, filePath) →
  implementsTarget fs node targetInterface javaFiles = true ↔
  implementsThrough fs javaFiles targetInterface node.
Proof.
  intros Hfind. unfold implementsTarget.
  destruct (implementsTargetInterface_returns fs targetInterface javaFiles
              node ∅) as (answer & visited' & _ & Hrun).
  rewrite (Hrun _ (le_n _)). destruct answer.
  - split; [|done]. intros _.
    by eapply implementsTargetInterface_true, (Hrun _ (le_n _)).
  - split; [done|]. intros Hthrough. exfalso.
    destruct (implementsTargetInterface_false fs targetInterface javaFiles
                _ _ _ _ _ _ Hfind (Hrun _ (le_n _))) as [Hin [_ Hnew]].
    eapply (explored_not_through fs targetInterface javaFiles visited');
      [|exact Hthrough|exact Hfind|exact Hin].
    intros name Hname. apply Hnew; [done|]. set_solver.
Qed.

(** ** What the directory walk collects *)

Section Collected.

Lemma fsLookup_cons entry sub rest name rel :
  fsLookup (FsDir ((entry, sub) :: rest)) (name :: rel) =
    if bool_decide (entry = name) then fsLookup sub rel
    else fsLookup (FsDir rest) (name :: rel).
Proof. done. Qed.

Lemma last_cons_nonempty (name other : string) rel :
  List.last (name :: other :: rel) "" = List.last (other :: rel) "".
Proof. done. Qed.

Lemma here_collectable entry sub rest rel :
  plainName entry → wellFormed sub →
  (∀ rel', rel' ∈ relativeFiles sub ↔ rel' ≠ [] ∧ collectable sub rel') →
  rel ∈ match sub with
        | FsDir _ =>
            if skippedDirectory entry then []
            else (entry ::.) <$> relativeFiles sub
        | FsFile => if Js.endsWith entry ".java" then [[entry]] else []
        end ↔
  ∃ rel', rel = entry :: rel' ∧
          collectable (FsDir ((entry, sub) :: rest)) (entry :: rel').
Proof.
  intros Hentry Hsub IH. unfold collectable.
  setoid_rewrite fsLookup_cons. setoid_rewrite bool_decide_eq_true_2; [|done..].
  destruct sub as [|entries].
  - split.
    + destruct (Js.endsWith entry ".java") eqn:Hjava;
        [|by intros ?%elem_of_nil].
      intros ->%list_elem_of_singleton. exists []. by repeat split.
    + intros (rel' & -> & Hfile & Hjava & _).
      destruct rel' as [|name rel']; [|done]. cbn in Hjava.
      rewrite Hjava. by apply list_elem_of_singleton.
  - split.
    + destruct (skippedDirectory entry) eqn:Hskip; [by intros ?%elem_of_nil|].
      intros (rel' & -> & [Hne (Hfile & Hjava & Hdirs)]%IH)%list_elem_of_fmap.
      exists rel'. split; [done|].
      destruct rel' as [|name rel']; [done|].
      split; [done|]. split; [done|].
      change (removelast (entry :: name :: rel'))
        with (entry :: removelast (name :: rel')).
      by apply Forall_cons.
    + intros (rel' & -> & Hfile & Hjava & Hdirs).
      destruct rel' as [|name rel']; [done|].
      change (removelast (entry :: name :: rel'))
        with (entry :: removelast (name :: rel')) in Hdirs.
      apply Forall_cons in Hdirs as [Hskip Hdirs]. rewrite Hskip.
      apply list_elem_of_fmap. exists (name :: rel'). split; [done|].
      apply IH. by repeat split.
Qed.

Lemma relativeFiles_collectable found rel :
  wellFormed found →
  rel ∈ relativeFiles found ↔ rel ≠ [] ∧ collectable found rel.
Proof.
  revert rel. induction found as [|entries IH] using FsEntry_ind;
    intros rel Hwf.
  { split; [by intros ?%elem_of_nil|].
    intros [Hne (Hfile & _)]. by destruct rel. }
  induction entries as [|[entry sub] rest IHrest].
  { split; [by intros ?%elem_of_nil|].
    intros [Hne (Hfile & _)]. by destruct rel. }
  apply wellFormed_cons in Hwf as (Hfresh & Hentry & Hsub & Hrest).
  apply Forall_cons in IH as [IHsub IH]. cbn [snd] in IHsub.
  rewrite relativeFiles_cons, elem_of_app.
  rewrite (here_collectable entry sub rest rel Hentry Hsub)
    by (intros; by apply IHsub).
  rewrite (IHrest IH Hrest). split.
  - intros [(rel' & -> & Hcol)|[Hne Hcol]]; [done|].
    split; [done|]. destruct rel as [|name rel']; [done|].
    pose proof Hcol as (Hfile & Hjava & Hdirs).
    split; [|by split]. rewrite fsLookup_cons.
    rewrite bool_decide_eq_false_2; [done|]. intros <-.
    assert (entry :: rel' ∈ relativeFiles (FsDir rest)) as Hin
      by (by apply (IHrest IH Hrest)).
    apply relativeFiles_head in Hin as (? & ? & [= <- _] & ?). done.
  - intros [Hne Hcol]. destruct rel as [|name rel']; [done|].
    destruct (decide (entry = name)) as [<-|Hother]; [left; by exists rel'|].
    right. split; [done|]. destruct Hcol as (Hfile & Hjava & Hdirs).
    split; [|by split]. rewrite fsLookup_cons in Hfile.
    by rewrite bool_decide_eq_false_2 in Hfile.
Qed.

Lemma foldl_join_located cur rel :
  rel ≠ [] → Forall plainName rel → foldl Path.join cur rel = located cur rel.
Proof.
  revert cur. induction rel as [|entry rel IH]; intros cur Hne Hplain; [done|].
  apply Forall_cons in Hplain as [Hentry Hplain]. cbn [foldl].
  rewrite join_located by done. destruct rel as [|name rel]; [done|].
  rewrite IH by done. by apply located_located.
Qed.

Lemma endsWith_append s1 s2 suf :
  Js.endsWith s2 suf = true → Js.endsWith (s1 +:+ s2) suf = true.
Proof.
  intros Hend. induction s1 as [|a s1 IH]; [done|].
  change (String a s1 +:+ s2) with (String a (s1 +:+ s2)).
  cbn [Js.endsWith]. rewrite IH. apply orb_true_r.
Qed.

Lemma endsWith_join sep parts suf :
  parts ≠ [] → Js.endsWith (List.last parts "") suf = true →
  Js.endsWith (Js.join sep parts) suf = true.
Proof.
  destruct parts as [|p parts _] using rev_ind; [done|]. intros _.
  rewrite List.last_last. intros Hend.
  destruct parts as [|p' parts]; [done|].
  rewrite (join_snoc sep (p' :: parts)) by done.
  by apply endsWith_append, endsWith_append.
Qed.

End Collected.

(** X3.  On a well-formed directory tree, [findJavaFiles(dir)] collects
    exactly the entries that are not directories, whose name ends in
    [.java], and that are reached from [dir] through directories not
    named [target] or [build] and not starting with a dot; each is
    listed under the path obtained by joining [dir] with the entry names
    on the way. *)
Theorem findJavaFiles_collects_exactly fs dir entries filePath :
  fsRoot fs = Some (FsDir entries) → wellFormed (FsDir entries) →
  filePath ∈ findJavaFiles fs dir ↔
  ∃ rel, rel ≠ [] ∧ collectable (FsDir entries) rel ∧
         filePath = foldl Path.join dir rel.
Proof.
  intros Hroot Hwf. unfold findJavaFiles. rewrite Hroot.
  rewrite walkDir_located by done. rewrite list_elem_of_fmap.
  split.
  - intros (rel & -> & Hin). exists rel.
    pose proof (relativeFiles_plain _ _ Hwf Hin) as [Hne Hplain].
    apply (relativeFiles_collectable _ _ Hwf) in Hin as [_ Hcol].
    split; [done|]. split; [done|]. by rewrite foldl_join_located.
  - intros (rel & Hne & Hcol & ->).
    assert (rel ∈ relativeFiles (FsDir entries)) as Hin
      by (by apply relativeFiles_collectable).
    exists rel. split; [|done].
    pose proof (relativeFiles_plain _ _ Hwf Hin) as [_ Hplain].
    by rewrite foldl_join_located.
Qed.

Lemma findJavaFiles_collects_exactly_witness :
  "/r/a-b/T.java" ∈ findJavaFiles Examples.collisionFs "/r" ↔
  ∃ rel, rel ≠ [] ∧
         collectable (FsDir [("a", FsDir [("T.java", FsFile)]);
                             ("a-b", FsDir [("T.java", FsFile)])]) rel ∧
         "/r/a-b/T.java" = foldl Path.join "/r" rel.
Proof.
  apply (findJavaFiles_collects_exactly Examples.collisionFs "/r"
           [("a", FsDir [("T.java", FsFile)]);
            ("a-b", FsDir [("T.java", FsFile)])] "/r/a-b/T.java").
  - reflexivity.
  - cbn. repeat split; try done.
    + apply NoDup_cons. split; [by intros [=]%list_elem_of_singleton|].
      apply NoDup_singleton.
    + apply NoDup_singleton.
    + apply NoDup_singleton.
Defined.

(** X4.  Every path [findJavaFiles] returns ends in [.java], whether the
    scan directory is a directory or a single file. *)
Theorem findJavaFiles_only_java fs dir root filePath :
  fsRoot fs = Some root → wellFormed root →
  filePath ∈ findJavaFiles fs dir → Js.endsWith filePath ".java" = true.
Proof.
  intros Hroot Hwf. unfold findJavaFiles. rewrite Hroot.
  destruct root as [|entries].
  { cbn. destruct (Js.endsWith dir ".java") eqn:Hjava;
      [by intros ->%list_elem_of_singleton|by intros ?%elem_of_nil]. }
  rewrite walkDir_located by done.
  intros (rel & -> & Hin)%list_elem_of_fmap.
  pose proof (relativeFiles_plain _ _ Hwf Hin) as [Hne _].
  apply (relativeFiles_collectable _ _ Hwf) in Hin as [_ (_ & Hjava & _)].
  unfold located, render. apply endsWith_append, endsWith_join.
  - by destruct (segmentsOf dir).
  - destruct rel as [|name rel _] using rev_ind; [done|].
    rewrite List.last_last in Hjava. by rewrite app_assoc, List.last_last.
Qed.

Lemma findJavaFiles_only_java_witness :
  Js.endsWith "/r/a/T.java" ".java" = true.
Proof.
  apply (findJavaFiles_only_java Examples.collisionFs "/r"
           (FsDir [("a", FsDir [("T.java", FsFile)]);
                   ("a-b", FsDir [("T.java", FsFile)])]) "/r/a/T.java").
  - reflexivity.
  - cbn. repeat split; try done.
    + apply NoDup_cons. split; [by intros [=]%list_elem_of_singleton|].
      apply NoDup_singleton.
    + apply NoDup_singleton.
    + apply NoDup_singleton.
  - apply elem_of_cons. left. reflexivity.
Defined.

(** X5.  On a well-formed directory tree [findJavaFiles] lists no path
    twice, and every path it lists is absolute exactly when the directory
    it was given is. *)
Theorem findJavaFiles_distinct_paths fs dir root :
  fsRoot fs = Some root → wellFormed root →
  NoDup (findJavaFiles fs dir) ∧
  ∀ filePath, filePath ∈ findJavaFiles fs dir →
              Path.isAbsolute filePath = Path.isAbsolute dir.
Proof.
  intros Hroot Hwf. unfold findJavaFiles. rewrite Hroot. split.
  - by apply walkDir_NoDup.
  - intros filePath. by apply walkDir_isAbsolute.
Qed.

Lemma findJavaFiles_distinct_paths_witness :
  NoDup (findJavaFiles Examples.collisionFs "/r") ∧
  ∀ filePath, filePath ∈ findJavaFiles Examples.collisionFs "/r" →
              Path.isAbsolute filePath = Path.isAbsolute "/r".
Proof.
  apply (findJavaFiles_distinct_paths Examples.collisionFs "/r"
           (FsDir [("a", FsDir [("T.java", FsFile)]);
                   ("a-b", FsDir [("T.java", FsFile)])])).
  - reflexivity.
  - cbn. repeat split; try done.
    + apply NoDup_cons. split; [by intros [=]%list_elem_of_singleton|].
      apply NoDup_singleton.
    + apply NoDup_singleton.
    + apply NoDup_singleton.
Defined.

(** ** What the scan lists *)

(** X7.  Exclusion of abstract declarations only removes files: the
    result with [excludeAbstract] on is the result with it off, without
    the files whose declaration [isAbstract] flags. *)
Theorem excludeAbstract_only_removes fs this filePath :
  filePath ∈ files (scan fs (setExcludeAbstract true this)) ↔
  filePath ∈ files (scan fs (setExcludeAbstract false this)) ∧
  ∃ typeNode, declarationOf fs filePath = Some typeNode ∧
              isAbstract typeNode = false.
Proof.
  rewrite !elem_of_scan, !matched_true. cbn [scanDir setExcludeAbstract].
  split.
  - intros (Hin & node & Hnode & Hskip & Hm). cbn in Hskip.
    split; [|by exists node]. split; [done|]. exists node.
    split; [done|]. split; [done|].
    destruct Hm as [Hm|Hm]; [left|right]; exact Hm.
  - intros ((Hin & node & Hnode & _ & Hm) & node' & Hnode' & Habs).
    rewrite Hnode in Hnode'. injection Hnode' as <-.
    split; [done|]. exists node. split; [done|]. split; [done|].
    destruct Hm as [Hm|Hm]; [left|right]; exact Hm.
Qed.

Section Locality.

Context (fs fs' : FileSystem) (javaFiles : list string).
Hypothesis same_declarations :
  ∀ p, p ∈ javaFiles → declarationOf fs p = declarationOf fs' p.




Lemma matched_declarationOf (world : FileSystem) this filePath :
  matched world this javaFiles filePath =
    match declarationOf world filePath with
    | Some typeNode =>
        if excludeAbstract this && isAbstract typeNode then false
        else hasConfiguredAnnotation this typeNode
             || hasConfiguredInterface world this typeNode javaFiles
    | None => false
    end.
Proof.
  unfold matched, declarationOf.
  by destruct (parseJavaFile world filePath).
Qed.


End Locality.


Section Criteria.

Context (this this' : Scanner).
Hypothesis same_annotations : ∀ a, a ∈ annotations this ↔ a ∈ annotations this'.
Hypothesis same_interfaces : ∀ i, i ∈ interfaces this ↔ i ∈ interfaces this'.

Lemma hasConfiguredAnnotation_same node :
  hasConfiguredAnnotation this node = hasConfiguredAnnotation this' node.
Proof.
  apply eq_true_iff_eq. rewrite !hasConfiguredAnnotation_true.
  unfold simpleAnnotationNames.
  setoid_rewrite list_elem_of_fmap. by setoid_rewrite same_annotations.
Qed.

Lemma hasConfiguredInterface_same fs node javaFiles :
  hasConfiguredInterface fs this node javaFiles
    = hasConfiguredInterface fs this' node javaFiles.
Proof.
  apply eq_true_iff_eq. rewrite !hasConfiguredInterface_true.
  by setoid_rewrite same_interfaces.
Qed.

End Criteria.

(** X9.  Only the sets of configured names matter: reordering or
    repeating entries of the annotation list or of the interface list
    does not change the result. *)
Theorem scan_ignores_order_and_repeats fs this this' :
  scanDir this = scanDir this' →
  excludeAbstract this = excludeAbstract this' →
  (∀ a, a ∈ annotations this ↔ a ∈ annotations this') →
  (∀ i, i ∈ interfaces this ↔ i ∈ interfaces this') →
  scan fs this = scan fs this'.
Proof.
  intros Hdir Habs Hann Hifc. unfold scan. rewrite <- Hdir.
  assert (∀ p, matched fs this (findJavaFiles fs (scanDir this)) p
               = matched fs this' (findJavaFiles fs (scanDir this)) p) as Hm.
  { intros p. unfold matched.
    destruct (parseJavaFile fs p) as [ast|]; [|done].
    destruct (getTypeDeclaration ast) as [typeNode|]; [|done].
    rewrite <- Habs.
    by rewrite (hasConfiguredAnnotation_same this this' Hann),
      (hasConfiguredInterface_same this this' Hifc). }
  by rewrite (List.filter_ext _ _ Hm).
Qed.

(** X10.  A file whose declaration is an interface is never listed,
    whatever is configured: nothing is extracted from its modifiers and
    it has no implements clause. *)
Theorem interface_files_are_never_listed fs this filePath d :
  declarationOf fs filePath = Some (Java.declaration d) →
  Java.kind d = Java.Interface →
  filePath ∉ files (scan fs this).
Proof.
  intros Hdecl Hk [_ Hm]%elem_of_scan.
  apply matched_true in Hm as (node & Hnode & _ & Hm).
  rewrite Hdecl in Hnode. injection Hnode as <-.
  destruct Hm as [Hm|Hm].
  - by rewrite hasConfiguredAnnotation_interface in Hm.
  - rewrite hasConfiguredInterface_nothing_implemented in Hm; [done|].
    by apply getImplementedInterfaces_declaration.
Qed.

Lemma interface_files_are_never_listed_witness :
  "/repo/Api.java" ∉ files (scan Examples.apiFs Examples.serviceScanner).
Proof.
  apply (interface_files_are_never_listed Examples.apiFs
           Examples.serviceScanner "/repo/Api.java" Examples.Api);
    reflexivity.
Defined.

Lemma getTypeDeclaration_compilationUnitWith d others :
  getTypeDeclaration (Java.compilationUnitWith d others)
    = Some (Java.declaration d).
Proof.
  unfold getTypeDeclaration, Java.compilationUnitWith, Cst.first, Cst.child.
  cbn. rewrite lookup_singleton_eq. cbn. rewrite lookup_singleton_eq. cbn.
  destruct (Java.kind d).
  - by rewrite lookup_singleton_eq.
  - rewrite lookup_singleton_ne by done. cbn. by rewrite lookup_singleton_eq.
Qed.


Lemma scan_ignores_order_and_repeats_witness :
  scan Examples.plainFs Examples.twoAnnotations
    = scan Examples.plainFs Examples.twoAnnotationsShuffled.
Proof.
  apply (scan_ignores_order_and_repeats Examples.plainFs
           Examples.twoAnnotations Examples.twoAnnotationsShuffled).
  - reflexivity.
  - reflexivity.
  - intros a. cbn. rewrite !elem_of_cons, !elem_of_nil. tauto.
  - intros i. cbn. rewrite !elem_of_cons, !elem_of_nil. tauto.
Defined.

Lemma resolver_decides_chains_witness :
  implementsTarget Examples.describedViaFs Examples.describedVia "Base"
    ["/repo/Base.java"; "/repo/Direct.java"; "/repo/Via.java"] = true ↔
  implementsThrough Examples.describedViaFs
    ["/repo/Base.java"; "/repo/Direct.java"; "/repo/Via.java"] "Base"
    Examples.describedVia.
Proof.
  apply (resolver_decides_chains Examples.describedViaFs "Via"
           Examples.describedVia "/repo/Via.java").
  reflexivity.
Defined.

(** Where the clauses expose their names as the specification words
    them, a chain through a class is followed: [Via] implements
    [Direct], which implements [Base]. *)
Example chain_through_class_is_followed :
  scan Examples.describedViaFs Examples.chainScanner
    = {| count := 2; files := ["/repo/Direct.java"; "/repo/Via.java"] |}.
Proof. by vm_compute. Qed.

(** ** The parse cache *)

Lemma cache_parseJavaFile fs parsedFiles filePath :
  cacheConsistent fs parsedFiles →
  (Cache.parseJavaFile fs parsedFiles filePath).1 = parseJavaFile fs filePath ∧
  cacheConsistent fs (Cache.parseJavaFile fs parsedFiles filePath).2 ∧
  dom (Cache.parseJavaFile fs parsedFiles filePath).2
    = dom parsedFiles ∪
      match parseJavaFile fs filePath with
      | Some _ => {[filePath]}
      | None => ∅
      end.
Proof.
  unfold cacheConsistent, Cache.parseJavaFile, parseJavaFile. intros Hsub.
  destruct (parsedFiles !! filePath) as [ast|] eqn:Hcached.
  - pose proof (lookup_weaken _ _ _ _ Hcached Hsub) as ->. cbn.
    split; [done|]. split; [done|].
    apply elem_of_dom_2 in Hcached. set_solver.
  - destruct (fsParsed fs !! filePath) as [ast|] eqn:Hparse; cbn.
    + split; [done|]. split; [by apply insert_subseteq_l|].
      rewrite dom_insert_L. set_solver.
    + split; [done|]. split; [done|]. set_solver.
Qed.

(** X11.  The cache never changes what a parse returns.  Starting from a
    cache that holds only trees of the file system (the empty cache of a
    new scanner does), parsing any paths in any order, with repeats,
    returns for each path what reading and parsing it afresh returns; the
    cache ends up holding, besides what it held, exactly the paths that
    parsed, and failures are not stored. *)
Theorem cache_is_transparent fs parsedFiles paths :
  cacheConsistent fs parsedFiles →
  (Cache.parseAll fs parsedFiles paths).1 = parseJavaFile fs <$> paths ∧
  cacheConsistent fs (Cache.parseAll fs parsedFiles paths).2 ∧
  dom (Cache.parseAll fs parsedFiles paths).2
    = dom parsedFiles ∪
      list_to_set (List.filter (λ p, bool_decide (is_Some (parseJavaFile fs p)))
                     paths).
Proof.
  revert parsedFiles.
  induction paths as [|p paths IH]; intros parsedFiles Hsub.
  { cbn. split; [done|]. split; [done|]. set_solver. }
  cbn [Cache.parseAll].
  destruct (cache_parseJavaFile fs parsedFiles p Hsub) as (Hres & Hsub1 & Hdom1).
  destruct (Cache.parseJavaFile fs parsedFiles p) as [ast cache1].
  cbn [fst snd] in *.
  destruct (IH cache1 Hsub1) as (Hrest & Hsub2 & Hdom2).
  destruct (Cache.parseAll fs cache1 paths) as [asts cache2].
  cbn [fst snd] in *. subst ast asts.
  split; [done|]. split; [done|].
  rewrite Hdom2, Hdom1. cbn [List.filter].
  destruct (parseJavaFile fs p) as [tree|].
  - rewrite bool_decide_eq_true_2 by eauto. cbn. set_solver.
  - rewrite bool_decide_eq_false_2 by (by intros [? ?]). set_solver.
Qed.

Lemma cache_is_transparent_witness :
  (Cache.parseAll Examples.ordersFs ∅
     ["/repo/Orders.java"; "/repo/Missing.java"; "/repo/Orders.java"]).1
    = parseJavaFile Examples.ordersFs
        <$> ["/repo/Orders.java"; "/repo/Missing.java"; "/repo/Orders.java"].
Proof.
  apply (cache_is_transparent Examples.ordersFs ∅
           ["/repo/Orders.java"; "/repo/Missing.java"; "/repo/Orders.java"]).
  apply map_empty_subseteq.
Defined.

(** ** The command line *)

Lemma parseArgs_plain arg rest opts :
  plainArgument arg → Main.parseArgs (arg :: rest) opts = Main.parseArgs rest opts.
Proof.
  intros (Hc & Hd & Hh & Hh'). cbn [Main.parseArgs].
  rewrite !bool_decide_eq_false_2 by (done || by intros [?|?]).
  by destruct rest.
Qed.

Lemma parseArgs_skip pre rest opts :
  Forall plainArgument pre →
  Main.parseArgs (pre ++ rest) opts = Main.parseArgs rest opts.
Proof.
  induction 1 as [|arg pre Harg _ IH]; [done|].
  cbn [app]. by rewrite parseArgs_plain.
Qed.

(** X12.  A help flag read in flag position ends the run with the usage
    text and exit code 0, before the configuration or any file is
    looked at: the outcome is the same in every world, whatever follows
    the flag. *)
Theorem help_wins world pre flag rest :
  Forall plainArgument pre → flag = "--help" ∨ flag = "-h" →
  Main.main world (pre ++ flag :: rest) = Main.Usage.
Proof.
  intros Hpre Hflag. unfold Main.main. rewrite parseArgs_skip by done.
  cbn [Main.parseArgs].
  assert (flag ≠ "--config" ∧ flag ≠ "--dir") as [Hc Hd]
    by (by destruct Hflag as [-> | ->]).
  rewrite !(bool_decide_eq_false_2 (flag = _)) by done.
  rewrite bool_decide_eq_true_2 by done. by destruct rest.
Qed.

Lemma help_wins_witness :
  Main.main Examples.world ["verbose"; "-h"; "--config"; "/nowhere.json"]
    = Main.Usage.
Proof.
  apply (help_wins Examples.world ["verbose"] "-h"
           ["--config"; "/nowhere.json"]).
  - apply Forall_singleton. by repeat split.
  - right. reflexivity.
Defined.

(** X13.  A non-empty directory given with [--dir] is the one scanned,
    whatever scan directory the configuration names; the rest of the
    configuration is used as loaded. *)
Theorem dir_argument_overrides world pre dir config :
  Forall plainArgument pre → dir ≠ "" →
  Main.configs world !! Path.join (Main.dirname world) "scan-config.json"
    = Some config →
  Main.main world (pre ++ ["--dir"; dir]) =
    Main.Printed
      (scan {| fsRoot := Main.directories world !! dir;
               fsParsed := Main.sources world |}
            {| annotations := annotations (new config);
               interfaces := interfaces (new config);
               excludeAbstract := excludeAbstract (new config);
               scanDir := dir |}).
Proof.
  intros Hpre Hdir Hconfig. unfold Main.main. rewrite parseArgs_skip by done.
  cbn [Main.parseArgs Main.configPath Main.scanDir].
  rewrite (bool_decide_eq_false_2 ("--dir" = "--config")) by done.
  rewrite (bool_decide_eq_true_2 ("--dir" = "--dir")) by done.
  cbn [Main.configPath Main.scanDir]. rewrite Hconfig.
  unfold Main.override. destruct dir as [|a dir]; [done|]. done.
Qed.

Lemma dir_argument_overrides_witness :
  Main.main Examples.world ["--dir"; "/other"] =
    Main.Printed
      (scan {| fsRoot := Main.directories Examples.world !! "/other";
               fsParsed := Main.sources Examples.world |}
            {| annotations := ["Service"]; interfaces := [];
               excludeAbstract := true; scanDir := "/other" |}).
Proof.
  apply (dir_argument_overrides Examples.world [] "/other"
           (mkConfig (Some ["Service"]) None None (Some "/repo"))).
  - apply Forall_nil_2.
  - discriminate.
  - reflexivity.
Defined.

(** X14.  A [--config] or [--dir] given last, with no value after it, and
    a [--dir] whose value is the empty string, change nothing: the run
    ends as it does without them. *)
Theorem valueless_flags_are_ignored world pre flag :
  Forall plainArgument pre → flag = "--config" ∨ flag = "--dir" →
  Main.main world (pre ++ [flag]) = Main.main world pre ∧
  Main.main world (pre ++ ["--dir"; ""]) = Main.main world pre.
Proof.
  intros Hpre Hflag.
  assert (∀ opts, Main.parseArgs pre opts = Some opts) as Hplain.
  { intros opts. rewrite <- (app_nil_r pre). by rewrite parseArgs_skip. }
  unfold Main.main. rewrite !parseArgs_skip, Hplain by done. split.
  - cbn [Main.parseArgs].
    rewrite bool_decide_eq_false_2; [done|].
    by destruct Hflag as [-> | ->]; intros [?|?].
  - cbn [Main.parseArgs].
    rewrite (bool_decide_eq_false_2 ("--dir" = "--config")) by done.
    rewrite (bool_decide_eq_true_2 ("--dir" = "--dir")) by done.
    cbn [Main.configPath Main.scanDir].
    by destruct (Main.configs world !! _).
Qed.

Lemma valueless_flags_are_ignored_witness :
  Main.main Examples.world ["verbose"; "--dir"]
    = Main.main Examples.world ["verbose"] ∧
  Main.main Examples.world ["verbose"; "--dir"; ""]
    = Main.main Examples.world ["verbose"].
Proof.
  apply (valueless_flags_are_ignored Examples.world ["verbose"] "--dir").
  - apply Forall_singleton. by repeat split.
  - right. reflexivity.
Defined.

(** The run of the example world without arguments: the configuration
    next to the script is loaded and its directory scanned. *)
Example main_without_arguments :
  Main.main Examples.world []
    = Main.Printed {| count := 1; files := ["/repo/Plain.java"] |} ∧
  Main.main Examples.world ["--config"; "/nowhere.json"]
    = Main.ConfigError "/nowhere.json" ∧
  Main.main Examples.world ["--config"; "--help"]
    = Main.ConfigError "--help".
Proof. repeat split; by vm_compute. Qed.

(** ** More on the result and the matchers *)



Lemma length_append (s1 s2 : string) :
  String.length (s1 +:+ s2) = String.length s1 + String.length s2.
Proof.
  induction s1 as [|a s1 IH]; [done|].
  change (String a s1 +:+ s2) with (String a (s1 +:+ s2)). cbn. by rewrite IH.
Qed.

(** A dotted reference is longer than its first identifier. *)
Lemma leading_is_not_text r :
  Java.qualifier r ≠ [] → Java.leading r ≠ Java.text r.
Proof.
  unfold Java.leading, Java.text.
  destruct (Java.qualifier r) as [|first rest]; [done|]. intros _ Heq.
  cbn [hd app] in Heq.
  assert (∃ tail, Js.join "." (first :: rest ++ [Java.identifier r])
                  = first +:+ "." +:+ tail) as [tail Htail].
  { destruct rest as [|second rest]; eexists; apply join_cons. }
  rewrite Htail in Heq. apply (f_equal String.length) in Heq.
  rewrite !length_append in Heq. cbn in Heq. lia.
Qed.

(** X16.  On a class declaration the annotation matcher compares the
    first identifier of the annotation, as written, with the configured
    names and with the part of each after its last dot.  A bare [@N]
    therefore matches every configured name that ends in [N]; an
    annotation written with a qualifier is matched by the configured
    name written the same way only when its first and its last
    identifier are the same. *)
Theorem first_identifier_decides_on_classes this d r :
  Java.kind d = Java.Class →
  Java.modifiers d = [Java.Annotation r] →
  Java.isIdentifier (Java.identifier r) →
  (Java.qualifier r = [] →
   ∀ configured,
     configured ∈ annotations this →
     Js.lastPart (Js.split "." configured) = Java.identifier r →
     hasConfiguredAnnotation this (Java.declaration d) = true) ∧
  (Java.qualifier r ≠ [] →
   annotations this = [Java.text r] →
   hasConfiguredAnnotation this (Java.declaration d) = true
   ↔ Java.leading r = Java.identifier r).
Proof.
  intros Hk Honly Hid. split.
  - intros Hq configured Hcfg Hlast.
    apply hasConfiguredAnnotation_class; [done|]. exists r.
    assert (Java.leading r = Java.identifier r) as ->
      by (unfold Java.leading; by rewrite Hq).
    split; [rewrite Honly; by apply list_elem_of_singleton|].
    split; [by destruct Hid|]. left. unfold simpleAnnotationNames.
    apply list_elem_of_fmap. by exists configured.
  - intros Hq Hcfg. rewrite hasConfiguredAnnotation_class by done.
    unfold simpleAnnotationNames. rewrite Hcfg, Honly.
    cbn [fmap list_fmap]. rewrite lastPart_text by done. split.
    + intros (r' & Hin & _ & Hmatch).
      apply list_elem_of_singleton in Hin. injection Hin as ->.
      destruct Hmatch as [Hmatch|Hmatch];
        apply list_elem_of_singleton in Hmatch; [done|].
      by apply leading_is_not_text in Hmatch.
    + intros Hsame. exists r. split; [by apply list_elem_of_singleton|].
      split; [rewrite Hsame; by destruct Hid|].
      left. by apply list_elem_of_singleton.
Qed.

Lemma first_identifier_decides_on_classes_witness :
  hasConfiguredAnnotation Examples.qualifiedScanner
    (Java.declaration Examples.Plain) = true ∧
  (hasConfiguredAnnotation Examples.qualifiedScanner
     (Java.declaration Examples.Orders) = true
   ↔ "com" = "Service").
Proof.
  split.
  - apply (first_identifier_decides_on_classes Examples.qualifiedScanner
             Examples.Plain (Examples.bare "Service"))
      with (configured := "com.example.Service").
    + reflexivity.
    + reflexivity.
    + split; [discriminate|reflexivity].
    + reflexivity.
    + apply list_elem_of_singleton. reflexivity.
    + reflexivity.
  - apply (first_identifier_decides_on_classes Examples.qualifiedScanner
             Examples.Orders Examples.comExampleService).
    + reflexivity.
    + reflexivity.
    + split; [discriminate|reflexivity].
    + discriminate.
    + reflexivity.
Defined.

(** The configuration of the usage text, a qualified annotation name,
    against a class annotated with that name as written. *)
Example qualified_annotation_misses_itself :
  annotations Examples.qualifiedScanner
    = [Java.text Examples.comExampleService] ∧
  scan Examples.ordersFs Examples.qualifiedScanner
    = {| count := 0; files := [] |}.
Proof. split; by vm_compute. Qed.

Lemma hasConfiguredInterface_declaration fs this d javaFiles :
  hasConfiguredInterface fs this (Java.declaration d) javaFiles = false.
Proof.
  apply hasConfiguredInterface_nothing_implemented,
    getImplementedInterfaces_declaration.
Qed.

(** X17.  When the declarations of the discovered files are class or
    interface declarations as the parser builds them, the configured
    target interfaces decide nothing: no name is read from an implements
    clause, so the result is the one of the same scan with no interface
    configured. *)
Theorem interface_criteria_never_match fs this :
  (∀ p node,
     p ∈ findJavaFiles fs (scanDir this) →
     declarationOf fs p = Some node → ∃ d, node = Java.declaration d) →
  scan fs this = scan fs (clearInterfaces this).
Proof.
  intros Hparsed. unfold scan. cbn [scanDir clearInterfaces].
  assert (List.filter
            (matched fs this (findJavaFiles fs (scanDir this)))
            (findJavaFiles fs (scanDir this))
          = List.filter
            (matched fs (clearInterfaces this)
               (findJavaFiles fs (scanDir this)))
            (findJavaFiles fs (scanDir this))) as ->; [|done].
  apply List.filter_ext_in. intros p Hin%list_elem_of_In.
  rewrite !matched_declarationOf.
  destruct (declarationOf fs p) as [node|] eqn:Hnode; [|done].
  destruct (Hparsed p node Hin Hnode) as [d ->].
  by rewrite !hasConfiguredInterface_declaration.
Qed.

Lemma interface_criteria_never_match_witness :
  scan Examples.directFs Examples.chainScanner
    = scan Examples.directFs (clearInterfaces Examples.chainScanner).
Proof.
  apply (interface_criteria_never_match Examples.directFs
           Examples.chainScanner).
  intros p node Hin Hnode.
  assert (findJavaFiles Examples.directFs (scanDir Examples.chainScanner)
          = ["/repo/Base.java"; "/repo/Direct.java"]) as Hfiles by reflexivity.
  rewrite Hfiles in Hin.
  apply elem_of_cons in Hin as [->|Hin].
  - exists Examples.Base.
    assert (declarationOf Examples.directFs "/repo/Base.java"
            = Some (Java.declaration Examples.Base)) as Hdecl by reflexivity.
    rewrite Hdecl in Hnode. injection Hnode as <-. reflexivity.
  - apply list_elem_of_singleton in Hin as ->.
    exists Examples.Direct.
    assert (declarationOf Examples.directFs "/repo/Direct.java"
            = Some (Java.declaration Examples.Direct)) as Hdecl by reflexivity.
    rewrite Hdecl in Hnode. injection Hnode as <-. reflexivity.
Defined.

(** The configuration of the usage text, a qualified interface name,
    against a class that implements the interface under that name. *)
Example qualified_interface_configuration_finds_nothing :
  interfaces Examples.handlerScanner = ["com.example.Handler"] ∧
  scan Examples.ordersFs Examples.handlerScanner
    = {| count := 0; files := [] |}.
Proof. split; by vm_compute. Qed.
